(** * Chest X-ray classification: the predictor CLI and the training script

    A shallow embedding of [src/predict.py] and of the parts of
    [src/train_model.py] that the specification speaks about, with the
    properties of the specification stated and proved over it.

    Conventions of the embedding.
    - Python [str] values are [string]s (sequences of bytes); [str.lower]
      is modelled on the ASCII letters, which is all the extension test of
      the CLI looks at.
    - The outputs of the network are single-precision numbers
      ([np.float32]): a finite value, an infinity or not-a-number, module
      [F32].  A finite value is the rational it denotes; [1 - prediction]
      is the single-precision subtraction, which rounds the exact
      difference to the nearest such number, ties to even; a comparison
      with not-a-number is false.  Pixel values over 255.0 and validation
      losses are rationals.
    - Effects (printing, calls into the framework, exceptions) are threaded
      through a small trace-and-error monad [M]. *)

From Stdlib Require Import Bool Arith Lia List String Ascii.
From Stdlib Require Import ZArith QArith Qminmax Qabs Qround Qpower.
From Stdlib Require Import Permutation.
From Stdlib Require Import DecimalString.
Import ListNotations.

Local Open Scope string_scope.
Local Open Scope list_scope.

(** ** Strings and paths *)

Module Str.

(** [c.lower()] on one character: the ASCII capitals are shifted, every
    other byte is kept. *)
Definition lower_ascii (c : ascii) : ascii :=
  let n := nat_of_ascii c in
  if (65 <=? n)%nat && (n <=? 90)%nat then ascii_of_nat (n + 32) else c.

(** [s.lower()] *)
Fixpoint lower (s : string) : string :=
  match s with
  | EmptyString => EmptyString
  | String c s' => String (lower_ascii c) (lower s')
  end.

(** [s.endswith(suffix)]: [suffix] is [s] or the end of what follows the
    first character of [s]. *)
Fixpoint endswith (s suffix : string) : bool :=
  String.eqb s suffix ||
  match s with
  | EmptyString => false
  | String _ s' => endswith s' suffix
  end.

(** [s.startswith(prefix)] *)
Definition startswith (s pre : string) : bool := String.prefix pre s.

(** ['/' in s] *)
Fixpoint has_sep (s : string) : bool :=
  match s with
  | EmptyString => false
  | String c s' => Ascii.eqb c "/" || has_sep s'
  end.

(** [str(n)] for a non-negative integer *)
Definition of_nat (n : nat) : string :=
  NilEmpty.string_of_uint (Nat.to_uint n).

(** The newline character of the f-strings. *)
Definition nl : string := String (ascii_of_nat 10) EmptyString.

End Str.

Module OsPath.

(** [posixpath.join(a, b)] for two components. *)
Definition join (a b : string) : string :=
  if Str.startswith b "/" then b
  else if String.eqb a "" || Str.endswith a "/" then a ++ b
  else a ++ "/" ++ b.

(** [posixpath.basename(p)]: what follows the last ['/']. *)
Fixpoint basename (p : string) : string :=
  match p with
  | EmptyString => EmptyString
  | String c p' =>
      if Ascii.eqb c "/" || Str.has_sep p' then basename p' else p
  end.

End OsPath.

(** ** The file system seen by the CLI

    The CLI only reads: [os.path.exists], [os.path.isdir],
    [os.path.isfile], [os.listdir] and the bytes of image files.  A path
    names nothing, a regular file, or a directory with its entries in the
    order in which [os.listdir] returns them. *)

Inductive Node : Type :=
| File (content : list nat)
| Dir (entries : list string).

Definition FileSystem : Type := string -> option Node.

Section OS.
Variable fs : FileSystem.

Definition exists_ (path : string) : bool :=
  match fs path with Some _ => true | None => false end.

Definition isdir (path : string) : bool :=
  match fs path with Some (Dir _) => true | _ => false end.

Definition isfile (path : string) : bool :=
  match fs path with Some (File _) => true | _ => false end.

Definition listdir (path : string) : list string :=
  match fs path with Some (Dir entries) => entries | _ => [] end.
End OS.

(** ** Interpreting the network's output ([predict_image], lines 50-58) *)

Definition Qgtb (x y : Q) : bool := negb (Qle_bool x y).

(** ** Single-precision numbers

    The outputs of the network are [np.float32] values, and
    [1 - prediction] is a subtraction of that type: the exact difference
    rounded to the nearest single-precision number, ties to even. *)

Module F32.

(** A value of [np.float32]: a finite number, an infinity or not a
    number.  The two zeros are not told apart; neither the comparison with
    0.5 nor the subtraction from 1 does. *)
Inductive float32 : Type :=
| Fin (q : Q)
| PosInf
| NegInf
| NaN.

Definition pow2 (e : Z) : Q := 2 ^ e.

(** The nearest integer, the even one of two that are equally near. *)
Definition rne (y : Q) : Z :=
  let f := Qfloor y in
  match Qcompare (y - inject_Z f) 0.5 with
  | Lt => f
  | Gt => (f + 1)%Z
  | Eq => if Z.even f then f else (f + 1)%Z
  end.

(** The exponent of the binade of [x]: going down from 127, the first
    [e] with [2^e <= x], and -126 (the subnormal range) when there is
    none. *)
Fixpoint find_exponent (n : nat) (e : Z) (x : Q) : Z :=
  match n with
  | O => e
  | S n' => if Qle_bool (pow2 e) x then e else find_exponent n' (e - 1) x
  end.

Definition exponent (x : Q) : Z := find_exponent 253 127 (Qabs x).

(** The spacing of the single-precision numbers around [x]: 24 bits of
    significand. *)
Definition ulp (x : Q) : Q := pow2 (exponent x - 23).

(** [x] rounded to the nearest multiple of its [ulp]. *)
Definition round_finite (x : Q) : Q := inject_Z (rne (x / ulp x)) * ulp x.

(** [x] rounded to single precision; beyond the largest finite number the
    result is an infinity. *)
Definition round (x : Q) : float32 :=
  let r := round_finite x in
  if Qle_bool (pow2 128) r then PosInf
  else if Qle_bool r (- pow2 128) then NegInf
  else Fin r.

(** [a - b] *)
Definition sub (a b : float32) : float32 :=
  match a, b with
  | NaN, _ | _, NaN => NaN
  | Fin x, Fin y => round (x - y)
  | PosInf, PosInf | NegInf, NegInf => NaN
  | PosInf, _ | _, NegInf => PosInf
  | NegInf, _ | _, PosInf => NegInf
  end.

(** [a > b]: false as soon as one side is not a number. *)
Definition gt (a b : float32) : bool :=
  match a, b with
  | NaN, _ | _, NaN => false
  | Fin x, Fin y => Qgtb x y
  | PosInf, PosInf | NegInf, NegInf => false
  | PosInf, _ | _, NegInf => true
  | NegInf, _ | _, PosInf => false
  end.

End F32.

Definition PNEUMONIA : string := "PNEUMONIA".
Definition NORMAL : string := "NORMAL".

Record Interpretation : Type := {
  diagnosis : string;
  confidence : F32.float32;
  color : string
}.

(** The [if prediction > 0.5: ... else: ...] of [predict_image]. *)
Definition interpret (prediction : F32.float32) : Interpretation :=
  if F32.gt prediction (F32.Fin 0.5) then
    {| diagnosis := PNEUMONIA; confidence := prediction; color := "red" |}
  else
    {| diagnosis := NORMAL;
       confidence := F32.sub (F32.Fin 1) prediction;
       color := "green" |}.

(** [train_model.py], lines 180 and 193-194: the class of one prediction,
    [(predictions > 0.5).astype(int)], and the label and confidence that
    [show_predictions] writes under a sample. *)
Definition predicted_class (prediction : F32.float32) : Z :=
  if F32.gt prediction (F32.Fin 0.5) then 1%Z else 0%Z.

Definition pred_label (prediction : F32.float32) : string :=
  if Z.eqb (predicted_class prediction) 1 then "Pneumonia" else "Normal".

Definition sample_confidence (prediction : F32.float32) : F32.float32 :=
  if Z.eqb (predicted_class prediction) 1 then prediction
  else F32.sub (F32.Fin 1) prediction.

(** ** Effects: exceptions and the trace of what the program does

    An [Exception] is any instance of Python's [Exception] class, which is
    what [except Exception] catches; [str(e)] is its message.  Interrupts
    ([BaseException] outside [Exception]) are not modelled. *)

Inductive Exception : Type :=
| FileNotFoundError (msg : string)
| IndexError (msg : string)
| OtherError (msg : string).

Definition str (e : Exception) : string :=
  match e with
  | FileNotFoundError msg | IndexError msg | OtherError msg => msg
  end.

(** Pixels of a decoded RGB image: rows of columns of three channels. *)
Definition Image : Type := list (list (list nat)).

(** A batch of normalised images. *)
Definition Tensor : Type := list (list (list (list Q))).

(** What the program does to the outside, in order. *)
Inductive Event : Type :=
| Print (line : string)
| LoadModel (model_path : string)
| OpenImage (image_path : string)
| Predict (img_array : Tensor)
| Show (title : string) (color : string).

(** A computation emits events and ends with a value or an exception. *)
Definition M (A : Type) : Type := list Event * (Exception + A).

Definition ret {A} (a : A) : M A := ([], inr a).

Definition raise {A} (e : Exception) : M A := ([], inl e).

Definition bind {A B} (m : M A) (f : A -> M B) : M B :=
  match m with
  | (t1, inl e) => (t1, inl e)
  | (t1, inr a) => let (t2, r) := f a in (t1 ++ t2, r)
  end.

Definition emit (ev : Event) : M unit := ([ev], inr tt).

Definition print (line : string) : M unit := emit (Print line).

(** The outcome of a call into a library, after the call has been logged. *)
Definition call {A} (ev : Event) (outcome : Exception + A) : M A :=
  ([ev], outcome).

(** [try: body except Exception as e: handler(e)] *)
Definition try_except {A} (body : M A) (handler : Exception -> M A) : M A :=
  match body with
  | (t1, inl e) => let (t2, r) := handler e in (t1 ++ t2, r)
  | (t1, inr a) => (t1, inr a)
  end.

Declare Scope monad_scope.
Delimit Scope monad_scope with monad.
Notation "x <- m ;; k" := (bind m (fun x => k))
  (at level 61, m at next level, right associativity) : monad_scope.
Notation "' pat <- m ;; k" := (bind m (fun x => match x with pat => k end))
  (at level 61, pat pattern, m at next level, right associativity) : monad_scope.
Notation "m ;; k" := (bind m (fun _ => k))
  (at level 61, right associativity) : monad_scope.

Definition trace {A} (m : M A) : list Event := fst m.
Definition outcome {A} (m : M A) : Exception + A := snd m.

Definition succeeded {A} (m : M A) : bool :=
  match outcome m with inr _ => true | inl _ => false end.

(** ** The predictor: [src/predict.py] *)

Definition IMG_SIZE : nat := 150.
Definition MODEL_PATH : string := "best_model.keras".

(** A loaded model is what [model.predict] does with a batch: it fails or
    returns one row of outputs per image. *)
Definition Model : Type := Tensor -> Exception + list (list F32.float32).

(** One entry of [results] in [predict_batch]. *)
Record Result : Type := {
  r_image : string;
  r_diagnosis : string;
  r_confidence : F32.float32;
  r_raw_score : F32.float32
}.

(** The parsed command line: [args.images], [args.model], [args.no_show]. *)
Record Args : Type := {
  args_images : list string;
  args_model : string;
  args_no_show : bool
}.

(** [--model] left out: argparse fills in [MODEL_PATH]. *)
Definition default_args (images : list string) : Args :=
  {| args_images := images; args_model := MODEL_PATH; args_no_show := false |}.

Section Predictor.
Local Open Scope monad_scope.

(** The world the CLI runs in: the file system, the image library
    ([Image.open(..).convert('RGB')] on the bytes of a file, and
    [resize]), the framework's model loader, and Python's number
    formatting for [:.2%] and [:.4f]. *)
Variable fs : FileSystem.
Variable decode_rgb : list nat -> Exception + Image.
Variable resize : nat * nat -> Image -> Image.
Variable keras_load_model : string -> Exception + Model.
Variable fmt_percent : F32.float32 -> string.
Variable fmt_fixed4 : F32.float32 -> string.

Definition load_model (model_path : string) : M Model :=
  if negb (exists_ fs model_path) then
    raise (FileNotFoundError ("Model not found: " ++ model_path))
  else
    print ("Loading model from " ++ model_path ++ "...") ;;
    model <- call (LoadModel model_path) (keras_load_model model_path) ;;
    print "Model loaded successfully!" ;;
    ret model.

(** [Image.open(image_path).convert('RGB')]: only a regular file can be
    decoded. *)
Definition open_rgb (image_path : string) : M Image :=
  call (OpenImage image_path)
    match fs image_path with
    | Some (File content) => decode_rgb content
    | Some (Dir _) => inl (OtherError ("Is a directory: " ++ image_path))
    | None => inl (FileNotFoundError ("No such file or directory: " ++ image_path))
    end.

(** [np.array(img) / 255.0] *)
Definition normalize (img : Image) : list (list (list Q)) :=
  map (map (map (fun v => inject_Z (Z.of_nat v) / 255.0))) img.

Definition preprocess_image (image_path : string) : M (Tensor * Image) :=
  img <- open_rgb image_path ;;
  let img := resize (IMG_SIZE, IMG_SIZE) img in
  let img_array := normalize img in
  let img_array := [img_array] in
  ret (img_array, img).

(** [model.predict(img_array, verbose=0)[0][0]] *)
Definition first_output (rows : list (list F32.float32))
  : Exception + F32.float32 :=
  match rows with
  | (x :: _) :: _ => inr x
  | _ => inl (IndexError "index 0 is out of bounds")
  end.

Definition run_predict (model : Model) (img_array : Tensor)
  : M F32.float32 :=
  call (Predict img_array)
    match model img_array with
    | inl e => inl e
    | inr rows => first_output rows
    end.

Definition predict_image (model : Model) (image_path : string) (show : bool)
  : M (string * F32.float32 * F32.float32) :=
  '(img_array, original_img) <- preprocess_image image_path ;;
  prediction <- run_predict model img_array ;;
  let i := interpret prediction in
  print (Str.nl ++ "Prediction Results:") ;;
  print ("  Diagnosis: " ++ diagnosis i) ;;
  print ("  Confidence: " ++ fmt_percent (confidence i)) ;;
  print ("  Raw Score: " ++ fmt_fixed4 prediction) ;;
  (if show then
     emit (Show ("Diagnosis: " ++ diagnosis i ++ Str.nl ++
                 "Confidence: " ++ fmt_percent (confidence i)) (color i))
   else ret tt) ;;
  ret (diagnosis i, confidence i, prediction).

(** [sum(1 for r in results if r['diagnosis'] == d)] *)
Definition count_diagnosis (d : string) (results : list Result) : nat :=
  list_sum (map (fun _ => 1%nat)
              (filter (fun r => String.eqb (r_diagnosis r) d) results)).

(** One turn of the [for] loop of [predict_batch]: [i] is the 1-based
    position, [total] is [len(image_paths)], [results] the list so far.
    Nothing after [results.append] can fail here, so the list that
    reaches the handler is the list before the turn. *)
Definition batch_step (model : Model) (total i : nat) (img_path : string)
    (results : list Result) : M (list Result) :=
  print ("[" ++ Str.of_nat i ++ "/" ++ Str.of_nat total ++ "] "
         ++ OsPath.basename img_path) ;;
  try_except
    ('(diagnosis, confidence, raw) <- predict_image model img_path false ;;
     let results := results ++ [{| r_image := OsPath.basename img_path;
                                   r_diagnosis := diagnosis;
                                   r_confidence := confidence;
                                   r_raw_score := raw |}] in
     print ("  → " ++ diagnosis ++ " (" ++ fmt_percent confidence ++ ")") ;;
     ret results)
    (fun e => print ("  Error: " ++ str e) ;; ret results).

Fixpoint batch_loop (model : Model) (total i : nat)
    (image_paths : list string) (results : list Result) : M (list Result) :=
  match image_paths with
  | [] => ret results
  | img_path :: rest =>
      results <- batch_step model total i img_path results ;;
      batch_loop model total (S i) rest results
  end.

Definition summary (results : list Result) : M unit :=
  print (Str.nl ++ "Summary:") ;;
  let normal := count_diagnosis "NORMAL" results in
  let pneumonia := count_diagnosis "PNEUMONIA" results in
  print ("  Normal: " ++ Str.of_nat normal) ;;
  print ("  Pneumonia: " ++ Str.of_nat pneumonia).

Definition predict_batch (model : Model) (image_paths : list string)
  : M (list Result) :=
  let total := List.length image_paths in
  print (Str.nl ++ "Processing " ++ Str.of_nat total ++ " images..." ++ Str.nl) ;;
  results <- batch_loop model total 1 image_paths [] ;;
  summary results ;;
  ret results.

(** What one image adds to [results]: an entry when [predict_image]
  returns, nothing when it raises.  Used to state what [predict_batch]
  returns. *)
Definition batch_entry (model : Model) (img_path : string) : list Result :=
match outcome (predict_image model img_path false) with
| inr (diagnosis, confidence, raw) =>
    [{| r_image := OsPath.basename img_path;
        r_diagnosis := diagnosis;
        r_confidence := confidence;
        r_raw_score := raw |}]
| inl _ => []
end.

(** The extensions a directory is searched for, in the order of the loop. *)
Definition extensions : list string := [".jpg"; ".jpeg"; ".png"].

(** [[os.path.join(path, f) for f in os.listdir(path)
      if f.lower().endswith(ext)]] *)
Definition children_with (path ext : string) : list string :=
  map (OsPath.join path)
    (filter (fun f => Str.endswith (Str.lower f) ext) (listdir fs path)).

(** One turn of [for path in args.images]. *)
Definition collect_step (image_paths : list string) (path : string)
  : list string :=
  if isdir fs path then
    fold_left (fun acc ext => acc ++ children_with path ext)
      extensions image_paths
  else if isfile fs path then image_paths ++ [path]
  else image_paths.

Definition collect_image_paths (images : list string) : list string :=
  fold_left collect_step images [].

Definition main (args : Args) : M unit :=
  model <- load_model (args_model args) ;;
  let image_paths := collect_image_paths (args_images args) in
  match image_paths with
  | [] => print "No valid images found!"
  | [image_path] =>
      predict_image model image_path (negb (args_no_show args)) ;; ret tt
  | _ => predict_batch model image_paths ;; ret tt
  end.

End Predictor.


(** The names the specification selects in a directory: those that end,
    whatever the case of their letters, in one of the three extensions. *)
Definition is_image_name (f : string) : bool :=
  existsb (fun ext => Str.endswith (Str.lower f) ext) extensions.

(** What the specification says a directory resolves to: its image
    children, in the order of the listing. *)
Definition listed_images (fs : FileSystem) (path : string) : list string :=
  map (OsPath.join path) (filter is_image_name (listdir fs path)).


(** ** The training script: [src/train_model.py] *)

Module Train.

Definition IMG_SIZE : nat := 150.
Definition BATCH_SIZE : nat := 32.
Definition EPOCHS : nat := 10.
Definition LEARNING_RATE : Q := 0.001.

Inductive Activation : Type := relu | sigmoid.

(** The layer constructors the script calls, with the arguments it gives. *)
Inductive Layer : Type :=
| Conv2D (filters : nat) (kernel_size : nat * nat) (activation : Activation)
    (input_shape : option (nat * nat * nat))
| BatchNormalization
| MaxPooling2D (pool_size : nat * nat)
| Flatten
| Dropout (rate : Q)
| Dense (units : nat) (activation : Activation).

(** [models.Sequential([...])] *)
Definition create_model : list Layer :=
  [ Conv2D 32 (3, 3)%nat relu (Some (IMG_SIZE, IMG_SIZE, 3)%nat);
    BatchNormalization;
    MaxPooling2D (2, 2)%nat;

    Conv2D 64 (3, 3)%nat relu None;
    BatchNormalization;
    MaxPooling2D (2, 2)%nat;

    Conv2D 128 (3, 3)%nat relu None;
    BatchNormalization;
    MaxPooling2D (2, 2)%nat;

    Conv2D 128 (3, 3)%nat relu None;
    BatchNormalization;
    MaxPooling2D (2, 2)%nat;

    Flatten;
    Dropout 0.5;
    Dense 512 relu;
    Dropout 0.3;
    Dense 1 sigmoid ].

(** The three callbacks handed to [model.fit], with the arguments of the
    script. *)
Record EarlyStopping : Type := {
  es_monitor : string;
  es_patience : nat;
  es_restore_best_weights : bool
}.

Record ReduceLROnPlateau : Type := {
  lr_monitor : string;
  lr_factor : Q;
  lr_patience : nat;
  lr_min_lr : Q
}.

Record ModelCheckpoint : Type := {
  ck_filepath : string;
  ck_monitor : string;
  ck_save_best_only : bool
}.

Definition early_stopping : EarlyStopping :=
  {| es_monitor := "val_loss"; es_patience := 3;
     es_restore_best_weights := true |}.

Definition reduce_lr : ReduceLROnPlateau :=
  {| lr_monitor := "val_loss"; lr_factor := 0.5; lr_patience := 2;
     lr_min_lr := 1e-7 |}.

Definition checkpoint : ModelCheckpoint :=
  {| ck_filepath := "best_model.keras"; ck_monitor := "val_accuracy";
     ck_save_best_only := true |}.

Definition callbacks : EarlyStopping * ReduceLROnPlateau * ModelCheckpoint :=
  (early_stopping, reduce_lr, checkpoint).

End Train.

(** What the specification says of a layer: its kind and sizes. *)
Inductive LayerKind : Type :=
| Convolution (width : nat) (kernel : nat * nat)
| BatchNormalize
| MaxPool (pool : nat * nat)
| FlattenAll
| DropoutOf (rate : Q)
| DenseOf (units : nat) (activation : Train.Activation).

Definition describe (l : Train.Layer) : LayerKind :=
  match l with
  | Train.Conv2D filters kernel_size _ _ => Convolution filters kernel_size
  | Train.BatchNormalization => BatchNormalize
  | Train.MaxPooling2D pool_size => MaxPool pool_size
  | Train.Flatten => FlattenAll
  | Train.Dropout rate => DropoutOf rate
  | Train.Dense units activation => DenseOf units activation
  end.

(** The topology in the words of the specification: four blocks of
    convolution, batch normalisation and pooling, of widths 32, 64, 128
    and 128, and then the dense head. *)
Definition spec_block (width : nat) : list LayerKind :=
  [Convolution width (3, 3)%nat; BatchNormalize; MaxPool (2, 2)%nat].

Definition spec_topology : list LayerKind :=
  flat_map spec_block [32; 64; 128; 128]%nat ++
  [FlattenAll; DropoutOf 0.5; DenseOf 512 Train.relu;
   DropoutOf 0.3; DenseOf 1 Train.sigmoid].

(** ** The epoch loop under early stopping

    [model.fit] and the callbacks are the framework's; the script only
    chooses their arguments ([Train.EPOCHS], [Train.early_stopping]). *)

Module Fit.

Definition Qltb (x y : Q) : bool := Qgtb y x.

Section Loop.
Variable Weights : Type.
Variable Optimizer : Type.

(** Modelled from the spec: the epoch of section 4.3, missing from the
    sources because it is the framework's.  One training pass over all
    batches updates the parameters (and the optimizer, whose learning rate
    the decay policy may lower), then one validation pass measures the
    validation loss. *)
Variable run_epoch :
  nat -> Weights * Optimizer -> (Weights * Optimizer) * Q.

(** Modelled from the spec: what the early-stopping policy remembers: the
    number of epochs since the validation loss last improved, the best
    loss seen and the parameters of the epoch that reached it. *)
Record Stopper : Type := {
  wait : nat;
  best : option Q;
  best_weights : option Weights
}.

Definition on_train_begin : Stopper :=
  {| wait := 0; best := None; best_weights := None |}.

(** Modelled from the spec: the loss improves when it is below the best. *)
Definition is_improvement (current : Q) (best : option Q) : bool :=
  match best with
  | None => true
  | Some b => Qltb current b
  end.

(** Modelled from the spec: the early-stop policy at the end of an epoch,
    "if validation loss does not improve for [patience] consecutive epochs,
    halt training".  The flag returned asks the loop to halt. *)
Definition on_epoch_end (cb : Train.EarlyStopping) (st : Stopper)
    (weights : Weights) (current : Q) : Stopper * bool :=
  if is_improvement current (best st) then
    ({| wait := 0; best := Some current;
        best_weights := if Train.es_restore_best_weights cb
                        then Some weights else None |}, false)
  else
    ({| wait := S (wait st); best := best st;
        best_weights := best_weights st |},
     (Train.es_patience cb <=? S (wait st))%nat).

(** Modelled from the spec: "restore the parameters from the best epoch". *)
Definition restore (st : Stopper) (weights : Weights) : Weights :=
  match best_weights st with
  | Some w => w
  | None => weights
  end.

(** Modelled from the spec: the end of a call to [fit]: the parameters
    and optimizer it leaves, the parameters and validation loss of every
    epoch run, and whether the run was halted by the policy. *)
Record Run : Type := {
  final_weights : Weights;
  final_optimizer : Optimizer;
  history : list (Weights * Q);
  stopped_early : bool
}.

(** Modelled from the spec: "for up to [EPOCHS] iterations, run one
    training pass, then one full validation pass", the policy observing
    each epoch.  The specification does not say whether a run that
    completes every epoch restores the best parameters;
    [restore_on_completion] leaves both behaviours possible. *)
Fixpoint fit_loop (cb : Train.EarlyStopping) (restore_on_completion : bool)
    (remaining epoch : nat) (s : Weights * Optimizer) (st : Stopper)
    (hist : list (Weights * Q)) : Run :=
  match remaining with
  | O =>
      {| final_weights :=
           if restore_on_completion then restore st (fst s) else fst s;
         final_optimizer := snd s;
         history := hist;
         stopped_early := false |}
  | S remaining' =>
      let (s', val_loss) := run_epoch epoch s in
      let hist' := hist ++ [(fst s', val_loss)] in
      let (st', stop) := on_epoch_end cb st (fst s') val_loss in
      if stop then
        {| final_weights := restore st' (fst s');
           final_optimizer := snd s';
           history := hist';
           stopped_early := true |}
      else
        fit_loop cb restore_on_completion remaining' (S epoch) s' st' hist'
  end.

(** Modelled from the spec: [model.fit(.., epochs=epochs,
    callbacks=[cb, ..])], the loop from a fresh policy and no history. *)
Definition fit (cb : Train.EarlyStopping) (restore_on_completion : bool)
    (epochs : nat) (s : Weights * Optimizer) : Run :=
  fit_loop cb restore_on_completion epochs 0 s on_train_begin [].

(** Epoch [j] of a history does not improve the validation loss: an
    earlier epoch had a loss that was not higher. *)
Definition no_improvement (hist : list (Weights * Q)) (j : nat) : Prop :=
  exists i wi li wj lj,
    (i < j)%nat /\ nth_error hist i = Some (wi, li) /\
    nth_error hist j = Some (wj, lj) /\ li <= lj.

(** [n] consecutive epochs from epoch [k] on without improvement. *)
Definition stale (hist : list (Weights * Q)) (k n : nat) : Prop :=
  forall j, (k <= j < k + n)%nat -> no_improvement hist j.

(** What holds between the history and the memory of the policy while the
    loop runs with patience [n]. *)
Definition loop_invariant (n : nat) (hist : list (Weights * Q))
    (st : Stopper) : Prop :=
  ((hist = [] /\ st = on_train_begin) \/
   (exists b wb lb,
      nth_error hist b = Some (wb, lb) /\
      best st = Some lb /\ best_weights st = Some wb /\
      (forall j wj lj, nth_error hist j = Some (wj, lj) -> lb <= lj) /\
      (forall j wj lj, (j < b)%nat -> nth_error hist j = Some (wj, lj) ->
         lb < lj) /\
      (wait st + b + 1 = List.length hist)%nat /\ (wait st < n)%nat)) /\
  (forall k, (k + n <= List.length hist)%nat -> ~ stale hist k n).

End Loop.

Arguments wait {Weights} _.
Arguments best {Weights} _.
Arguments best_weights {Weights} _.
Arguments final_weights {Weights Optimizer} _.
Arguments final_optimizer {Weights Optimizer} _.
Arguments history {Weights Optimizer} _.
Arguments stopped_early {Weights Optimizer} _.

(** The call of the script: [model.fit(train_generator, epochs=EPOCHS,
    validation_data=val_generator, callbacks=callbacks)]. *)
Definition training_run {Weights Optimizer : Type}
    (run_epoch : nat -> Weights * Optimizer -> (Weights * Optimizer) * Q)
    (restore_on_completion : bool) (s : Weights * Optimizer)
  : Run Weights Optimizer :=
  fit Weights Optimizer run_epoch (fst (fst Train.callbacks))
    restore_on_completion Train.EPOCHS s.

End Fit.

(** ** Small worlds on which the program is run in the examples *)

Module Demo.

(** A directory whose listing mixes the extensions, a text file named on
    its own, and a model file. *)
Definition fs : FileSystem := fun path =>
  if String.eqb path "scans" then Some (Dir ["a.png"; "b.jpg"; "notes.txt"])
  else if String.eqb path "notes.txt" then Some (File [110; 111]%nat)
  else if String.eqb path "best_model.keras" then Some (File [75]%nat)
  else None.

(** The same places without the model file. *)
Definition fs_no_model : FileSystem := fun path =>
  if String.eqb path "best_model.keras" then None else fs path.

(** An image library that reads every file as one grey pixel per byte and
    resizes by repeating the first pixel. *)
Definition decode_rgb (content : list nat) : Exception + Image :=
  match content with
  | [] => inl (OtherError "cannot identify image file")
  | _ => inr [map (fun v => [v; v; v]) content]
  end.

Definition resize (size : nat * nat) (img : Image) : Image :=
  let px := hd [0; 0; 0]%nat (hd [] img) in
  repeat (repeat px (fst size)) (snd size).

(** A model that answers 0.75 whatever the image. *)
Definition always_ill : Model := fun _ => inr [[F32.Fin 0.75]].

Definition keras_load_model (model_path : string) : Exception + Model :=
  inr always_ill.

Definition fmt (x : F32.float32) : string := "?".

(** A file system of scans in which one file is empty, hence unreadable. *)
Definition fs_batch : FileSystem := fun path =>
  if String.eqb path "ward/bad.png" then Some (File [])
  else if Str.endswith path ".png" then Some (File [7]%nat)
  else None.

(** A model whose score is the first channel of the first pixel, as a
    single-precision number. *)
Definition first_pixel : Model := fun img_array =>
  match img_array with
  | ((v :: _) :: _) :: _ =>
      match v with
      | x :: _ => inr [[F32.round x]]
      | [] => inl (OtherError "empty pixel")
      end
  | _ => inl (OtherError "empty batch")
  end.

(** A training run whose epochs only count, with a scripted sequence of
    validation losses. *)
Definition run_epoch (losses : list Q) (epoch : nat) (s : nat * unit)
  : (nat * unit) * Q :=
  ((S epoch, tt), nth epoch losses 1).

End Demo.

(** The CLI in the demo world, with and without the model file. *)
Definition demo_main : Args -> M unit :=
  main Demo.fs Demo.decode_rgb Demo.resize Demo.keras_load_model
    Demo.fmt Demo.fmt.

Definition demo_main_no_model : Args -> M unit :=
  main Demo.fs_no_model Demo.decode_rgb Demo.resize Demo.keras_load_model
    Demo.fmt Demo.fmt.


(** ** Kinds of events, to speak of parts of a trace *)

Definition is_print (ev : Event) : bool :=
  match ev with Print _ => true | _ => false end.

Definition is_open (ev : Event) : bool :=
  match ev with OpenImage _ => true | _ => false end.

Definition is_predict (ev : Event) : bool :=
  match ev with Predict _ => true | _ => false end.

Definition is_show (ev : Event) : bool :=
  match ev with Show _ _ => true | _ => false end.


(** ** A ward of scans, with a model file, and a loader that refuses it *)

Definition ward_fs : FileSystem := fun path =>
  if String.eqb path "best_model.keras" then Some (File [75]%nat)
  else if String.eqb path "ward" then Some (Dir ["a.png"; "bad.png"; "c.png"])
  else Demo.fs_batch path.

Definition rejecting_loader (model_path : string) : Exception + Model :=
  inl (OtherError "file signature not found").

(** ** The sample grid of the training script: [show_predictions] *)

Module Grid.

(** What [show_predictions] does to the generator and to the plotting
    library, in order. *)
Inductive PlotEvent (Picture : Type) : Type :=
| Reset
| NextBatch
| Subplots (rows cols : nat)
| Imshow (axis : nat) (img : Picture)
| SetTitle (axis : nat) (title color : string)
| AxisOff (axis : nat)
| TightLayout
| SaveFig (path : string)
| PlotShow.

Arguments Reset {Picture}.
Arguments NextBatch {Picture}.
Arguments Subplots {Picture} _ _.
Arguments Imshow {Picture} _ _.
Arguments SetTitle {Picture} _ _ _.
Arguments AxisOff {Picture} _.
Arguments TightLayout {Picture}.
Arguments SaveFig {Picture} _.
Arguments PlotShow {Picture}.

Section ShowPredictions.
Variable Picture : Type.

(** A computation of the plotting code: its events, then a value or an
    exception. *)
Definition P (A : Type) : Type := list (PlotEvent Picture) * (Exception + A).

Definition pret {A} (a : A) : P A := ([], inr a).

Definition pbind {A B} (m : P A) (f : A -> P B) : P B :=
  match m with
  | (t1, inl e) => (t1, inl e)
  | (t1, inr a) => let (t2, r) := f a in (t1 ++ t2, r)
  end.

Definition pemit (ev : PlotEvent Picture) : P unit := ([ev], inr tt).

(** [xs[i]] on a list or an array *)
Definition index {A} (xs : list A) (i : nat) : P A :=
  match nth_error xs i with
  | Some x => ([], inr x)
  | None => ([], inl (IndexError "index out of range"))
  end.

(** The first batch of the generator, [images, labels = next(generator)];
    the module-level [predicted_classes], one class per test sample; and
    Python's formatting for [:.2f]. *)
Variable images : list Picture.
Variable labels : list Q.
Variable predicted_classes : list Z.
Variable fmt_fixed2 : F32.float32 -> string.

(** One turn of [for i in range(..)]; [predictions] holds the one output
    of the network per test sample, [predictions[i][0]]. *)
Definition panel (axes : list nat) (predictions : list F32.float32)
    (i : nat) : P unit :=
  pbind (index axes i) (fun ax =>
  pbind (index images i) (fun img =>
  pbind (pemit (Imshow ax img)) (fun _ =>
  pbind (index labels i) (fun label =>
  let true_label := if Qeq_bool label 1 then "Pneumonia" else "Normal" in
  pbind (index predicted_classes i) (fun cls =>
  let pred_label := if Z.eqb cls 1 then "Pneumonia" else "Normal" in
  pbind (index predictions i) (fun prediction =>
  let confidence :=
    if Z.eqb cls 1 then prediction else F32.sub (F32.Fin 1) prediction in
  let color := if String.eqb true_label pred_label then "green" else "red" in
  pbind (pemit (SetTitle ax
                  ("True: " ++ true_label ++ Str.nl ++
                   "Pred: " ++ pred_label ++ Str.nl ++
                   "Conf: " ++ fmt_fixed2 confidence) color)) (fun _ =>
  pemit (AxisOff ax)))))))).

Fixpoint panels (axes : list nat) (predictions : list F32.float32)
    (indices : list nat) : P unit :=
  match indices with
  | [] => pret tt
  | i :: rest =>
      pbind (panel axes predictions i) (fun _ => panels axes predictions rest)
  end.

Definition show_predictions (predictions : list F32.float32)
    (num_images : nat) : P unit :=
  pbind (pemit Reset) (fun _ =>
  pbind (pemit NextBatch) (fun _ =>
  pbind (pemit (Subplots 2 4)) (fun _ =>
  let axes := seq 0 (2 * 4) in
  pbind (panels axes predictions
           (seq 0 (Nat.min num_images (List.length images)))) (fun _ =>
  pbind (pemit TightLayout) (fun _ =>
  pbind (pemit (SaveFig "predictions_sample.png")) (fun _ =>
  pemit PlotShow)))))).

End ShowPredictions.

(** The call of the script, [show_predictions(test_generator, predictions)]
    with [num_images] left at 8 and
    [predicted_classes = (predictions > 0.5).astype(int)]. *)
Definition script_call {Picture : Type} (images : list Picture)
    (labels : list Q) (fmt_fixed2 : F32.float32 -> string)
    (predictions : list F32.float32) : P Picture unit :=
  show_predictions Picture images labels (map predicted_class predictions)
    fmt_fixed2 predictions 8.

Definition is_title {Picture : Type} (ev : PlotEvent Picture) : bool :=
  match ev with SetTitle _ _ _ => true | _ => false end.

Definition is_savefig {Picture : Type} (ev : PlotEvent Picture) : bool :=
  match ev with SaveFig _ => true | _ => false end.

End Grid.

(** * Properties *)

(** ** Interpreting the network's output *)

Lemma Qgtb_true (x y : Q) : Qgtb x y = true <-> y < x.
Proof.
  unfold Qgtb. rewrite negb_true_iff, <- not_true_iff_false, Qle_bool_iff.
  split; [apply Qnot_le_lt | apply Qlt_not_le].
Qed.

Lemma Qgtb_false (x y : Q) : Qgtb x y = false <-> x <= y.
Proof.
  unfold Qgtb. rewrite negb_false_iff. apply Qle_bool_iff.
Qed.

(** ** Facts about single-precision rounding *)

Module F32Facts.
Import F32.

Lemma pow2_pos (e : Z) : 0 < pow2 e.
Proof. apply Qpower_0_lt. reflexivity. Qed.

Lemma pow2_le (a b : Z) : (a <= b)%Z -> pow2 a <= pow2 b.
Proof. intros H. apply Qpower_le_compat_l; [exact H | discriminate]. Qed.

Lemma pow2_lt_inv (a b : Z) : pow2 a < pow2 b -> (a < b)%Z.
Proof. intros H. apply (Qpower_lt_compat_l_inv 2); [exact H | reflexivity]. Qed.

Lemma pow2_add (a b : Z) : pow2 (a + b) == pow2 a * pow2 b.
Proof. apply Qpower_plus. discriminate. Qed.

Lemma pow2_Z (n : Z) : (0 <= n)%Z -> pow2 n == inject_Z (2 ^ n).
Proof. intros H. unfold pow2. now rewrite (Zpower_Qpower 2 n H). Qed.

(** A power of two is a whole number of any smaller power of two. *)
Lemma pow2_multiple (G e : Z) :
  (e <= G)%Z -> pow2 G == inject_Z (2 ^ (G - e)) * pow2 e.
Proof.
  intros H. replace G with ((G - e) + e)%Z at 1 by ring.
  rewrite pow2_add, pow2_Z by lia. reflexivity.
Qed.

(** Where the search for the exponent ends. *)
Lemma find_exponent_spec (n : nat) (x : Q) :
  forall e,
    (e - Z.of_nat n <= find_exponent n e x <= e)%Z /\
    (find_exponent n e x = (e - Z.of_nat n)%Z \/
     pow2 (find_exponent n e x) <= x) /\
    (find_exponent n e x = e \/ x < pow2 (find_exponent n e x + 1)).
Proof.
  induction n as [| n IH]; intros e.
  - cbn [find_exponent]. split; [lia |]. split; left; lia.
  - cbn [find_exponent].
    destruct (Qle_bool (pow2 e) x) eqn:T.
    + apply Qle_bool_iff in T. split; [lia |]. split; [now right | now left].
    + destruct (IH (e - 1)%Z) as (R & L & U).
      split; [lia |]. split.
      * destruct L as [L | L]; [left; lia | now right].
      * right. destruct U as [U | U]; [| exact U].
        rewrite U. replace (e - 1 + 1)%Z with e by ring.
        apply Qnot_le_lt. intros C. apply Qle_bool_iff in C. congruence.
Qed.

Lemma exponent_spec (x : Q) :
  0 <= x ->
  (-126 <= exponent x <= 127)%Z /\
  (exponent x = (-126)%Z \/ pow2 (exponent x) <= x) /\
  (exponent x = 127%Z \/ x < pow2 (exponent x + 1)).
Proof.
  intros H. unfold exponent.
  destruct (find_exponent_spec 253 (Qabs x) 127) as (R & L & U).
  pose proof (Qabs_pos x H) as Hx. cbn in R.
  split; [exact R |]. split.
  - destruct L as [L | L]; [left; exact L | right].
    apply Qle_trans with (Qabs x); [exact L |].
    rewrite Hx. apply Qle_refl.
  - destruct U as [U | U]; [left; exact U | right].
    apply Qle_lt_trans with (Qabs x); [| exact U].
    rewrite Hx. apply Qle_refl.
Qed.

Lemma exponent_le (G : Z) (x : Q) :
  0 <= x -> x < pow2 (G + 1) -> (-126 <= G)%Z -> (exponent x <= G)%Z.
Proof.
  intros H0 Hx HG. destruct (exponent_spec x H0) as (_ & [L | L] & _); [lia |].
  assert (Hlt : pow2 (exponent x) < pow2 (G + 1))
    by (eapply Qle_lt_trans; eauto).
  apply pow2_lt_inv in Hlt. lia.
Qed.

Lemma exponent_ge (G : Z) (x : Q) :
  0 <= x -> pow2 G <= x -> (G <= 127)%Z -> (G <= exponent x)%Z.
Proof.
  intros H0 Hx HG. destruct (exponent_spec x H0) as (_ & _ & [U | U]); [lia |].
  assert (Hlt : pow2 G < pow2 (exponent x + 1))
    by (eapply Qle_lt_trans; eauto).
  apply pow2_lt_inv in Hlt. lia.
Qed.

(** The nearest integer is within one half. *)
Ltac q_unfold y :=
  unfold Qeq, Qle, Qlt, Qminus, Qplus, Qopp, inject_Z in *;
  cbn [Qnum Qden] in *; destruct y as [yn yd]; cbn [Qnum Qden] in *;
  rewrite ?Pos2Z.inj_mul in *; nia.

Lemma rne_near (y : Q) :
  inject_Z (rne y) - y <= 0.5 /\ y - inject_Z (rne y) <= 0.5.
Proof.
  pose proof (Qfloor_le y) as Hlo. pose proof (Qlt_floor y) as Hhi.
  unfold rne. set (f := Qfloor y) in *.
  destruct (Qcompare (y - inject_Z f) 0.5) eqn:C.
  - apply Qeq_alt in C. destruct (Z.even f); split; q_unfold y.
  - apply Qlt_alt in C. split; q_unfold y.
  - apply Qgt_alt in C. split; q_unfold y.
Qed.

Lemma rne_ge (k : Z) (y : Q) : inject_Z k <= y -> (k <= rne y)%Z.
Proof.
  intros H. destruct (rne_near y) as [_ Hn].
  set (r := rne y) in *. clearbody r. q_unfold y.
Qed.

Lemma rne_le (k : Z) (y : Q) : y <= inject_Z k -> (rne y <= k)%Z.
Proof.
  intros H. destruct (rne_near y) as [Hn _].
  set (r := rne y) in *. clearbody r. q_unfold y.
Qed.

Lemma ulp_pos (x : Q) : 0 < ulp x.
Proof. apply pow2_pos. Qed.

(** Rounding does not cross a power of two that is a multiple of the
    spacing. *)
Lemma round_finite_ge (G : Z) (x : Q) :
  pow2 G <= x -> (exponent x - 23 <= G)%Z -> pow2 G <= round_finite x.
Proof.
  intros Hx HG. unfold round_finite.
  rewrite (pow2_multiple G (exponent x - 23) HG) in *.
  fold (ulp x) in *.
  apply Qmult_le_compat_r; [| apply Qlt_le_weak, ulp_pos].
  rewrite <- Zle_Qle. apply rne_ge.
  apply Qle_shift_div_l; [apply ulp_pos | exact Hx].
Qed.

Lemma round_finite_le (G : Z) (x : Q) :
  x <= pow2 G -> (exponent x - 23 <= G)%Z -> round_finite x <= pow2 G.
Proof.
  intros Hx HG. unfold round_finite.
  rewrite (pow2_multiple G (exponent x - 23) HG) in *.
  fold (ulp x) in *.
  apply Qmult_le_compat_r; [| apply Qlt_le_weak, ulp_pos].
  rewrite <- Zle_Qle. apply rne_le.
  apply Qle_shift_div_r; [apply ulp_pos | exact Hx].
Qed.

Lemma round_finite_nonneg (x : Q) : 0 <= x -> 0 <= round_finite x.
Proof.
  intros Hx. unfold round_finite.
  apply Qmult_le_0_compat; [| apply Qlt_le_weak, ulp_pos].
  change 0 with (inject_Z 0). rewrite <- Zle_Qle. apply rne_ge.
  apply Qle_shift_div_l; [apply ulp_pos |].
  now rewrite Qmult_0_l.
Qed.

(** Rounding moves a number by at most half the spacing. *)
Lemma round_finite_error (x : Q) :
  Qabs (round_finite x - x) <= 0.5 * ulp x.
Proof.
  unfold round_finite. pose proof (ulp_pos x) as Hu.
  destruct (rne_near (x / ulp x)) as [H1 H2].
  assert (E : inject_Z (rne (x / ulp x)) * ulp x - x ==
              (inject_Z (rne (x / ulp x)) - x / ulp x) * ulp x).
  { field. intros C. rewrite C in Hu. discriminate Hu. }
  rewrite E, Qabs_Qmult, (Qabs_pos (ulp x)) by now apply Qlt_le_weak.
  apply Qmult_le_compat_r; [| now apply Qlt_le_weak].
  apply Qabs_Qle_condition. split.
  - apply Qopp_le_compat in H2.
    eapply Qle_trans; [| eapply Qle_trans; [exact H2 |]].
    + apply Qle_refl.
    + assert (E2 : - (x / ulp x - inject_Z (rne (x / ulp x))) ==
                   inject_Z (rne (x / ulp x)) - x / ulp x) by ring.
      rewrite E2. apply Qle_refl.
  - exact H1.
Qed.

Lemma round_finite_in_range (x : Q) :
  - pow2 128 < round_finite x -> round_finite x < pow2 128 ->
  round x = Fin (round_finite x).
Proof.
  intros Hlo Hhi. unfold round.
  destruct (Qle_bool (pow2 128) (round_finite x)) eqn:A.
  - apply Qle_bool_iff in A. destruct (Qlt_not_le _ _ Hhi A).
  - destruct (Qle_bool (round_finite x) (- pow2 128)) eqn:B; [| reflexivity].
    apply Qle_bool_iff in B. destruct (Qlt_not_le _ _ Hlo B).
Qed.

Lemma half_is_pow2 : pow2 (-1) == 0.5.
Proof. reflexivity. Qed.

Lemma one_is_pow2 : pow2 0 == 1.
Proof. reflexivity. Qed.

(** [1 - p] in single precision, for [p] in the lower half of [0, 1]:
    a finite number between 0.5 and 1. *)
Lemma sub_one_low (p : Q) :
  0 <= p -> p <= 0.5 ->
  sub (Fin 1) (Fin p) = Fin (round_finite (1 - p)) /\
  0.5 <= round_finite (1 - p) /\ round_finite (1 - p) <= 1.
Proof.
  intros H0 H1.
  assert (Hlo : 0.5 <= 1 - p) by q_unfold p.
  assert (Hhi : 1 - p <= 1) by q_unfold p.
  assert (Hnn : 0 <= 1 - p) by q_unfold p.
  assert (HE : (exponent (1 - p) <= 0)%Z).
  { apply exponent_le; [exact Hnn | | lia].
    eapply Qle_lt_trans; [exact Hhi | reflexivity]. }
  assert (A : 0.5 <= round_finite (1 - p)).
  { apply Qle_trans with (pow2 (-1)); [discriminate |].
    apply round_finite_ge; [| lia].
    eapply Qle_trans; [| exact Hlo]. discriminate. }
  assert (B : round_finite (1 - p) <= 1).
  { apply Qle_trans with (pow2 0); [| discriminate].
    apply round_finite_le; [| lia].
    eapply Qle_trans; [exact Hhi |]. discriminate. }
  split; [| now split].
  cbn [sub]. apply round_finite_in_range.
  - eapply Qlt_le_trans; [| exact A]. reflexivity.
  - eapply Qle_lt_trans; [exact B |]. reflexivity.
Qed.

(** [1 - p] in single precision, for [p] in the upper half of [0, 1]:
    a finite number between 0 and 0.5. *)
Lemma sub_one_high (p : Q) :
  0.5 < p -> p <= 1 ->
  sub (Fin 1) (Fin p) = Fin (round_finite (1 - p)) /\
  0 <= round_finite (1 - p) /\ round_finite (1 - p) <= 0.5.
Proof.
  intros H0 H1.
  assert (Hhi : 1 - p <= 0.5) by q_unfold p.
  assert (Hnn : 0 <= 1 - p) by q_unfold p.
  assert (HE : (exponent (1 - p) <= -1)%Z).
  { apply exponent_le; [exact Hnn | | lia].
    eapply Qle_lt_trans; [exact Hhi | reflexivity]. }
  assert (A : 0 <= round_finite (1 - p)) by now apply round_finite_nonneg.
  assert (B : round_finite (1 - p) <= 0.5).
  { apply Qle_trans with (pow2 (-1)); [| discriminate].
    apply round_finite_le; [| lia].
    eapply Qle_trans; [exact Hhi |]. discriminate. }
  split; [| now split].
  cbn [sub]. apply round_finite_in_range.
  - eapply Qlt_le_trans; [| exact A]. reflexivity.
  - eapply Qle_lt_trans; [exact B |]. reflexivity.
Qed.

(** In the lower half the rounded difference is within [2^-25] of the
    exact one. *)
Lemma sub_one_error (p : Q) :
  0 < p -> p <= 0.5 ->
  Qabs (round_finite (1 - p) - (1 - p)) <= pow2 (-25).
Proof.
  intros H0 H1.
  assert (Hlo : 0.5 <= 1 - p) by q_unfold p.
  assert (Hhi : 1 - p < 1) by q_unfold p.
  assert (Hnn : 0 <= 1 - p) by q_unfold p.
  assert (HE : exponent (1 - p) = (-1)%Z).
  { apply Z.le_antisymm.
    - apply exponent_le; [exact Hnn | exact Hhi | lia].
    - apply exponent_ge; [exact Hnn | | lia].
      eapply Qle_trans; [| exact Hlo]. discriminate. }
  pose proof (round_finite_error (1 - p)) as E.
  unfold ulp in E. rewrite HE in E.
  eapply Qle_trans; [exact E |]. discriminate.
Qed.

Lemma gt_finite (x y : Q) : gt (Fin x) (Fin y) = true <-> y < x.
Proof.
  cbn [gt]. unfold Qgtb.
  rewrite negb_true_iff, <- not_true_iff_false, Qle_bool_iff.
  split; [apply Qnot_le_lt | apply Qlt_not_le].
Qed.

Lemma gt_finite_false (x y : Q) : gt (Fin x) (Fin y) = false <-> x <= y.
Proof. cbn [gt]. unfold Qgtb. rewrite negb_false_iff. apply Qle_bool_iff. Qed.

End F32Facts.

(** *** Properties of the interpretation *)

Lemma interpret_pneumonia (p : F32.float32) :
  F32.gt p (F32.Fin 0.5) = true -> interpret p =
    {| diagnosis := PNEUMONIA; confidence := p; color := "red" |}.
Proof. intros H. unfold interpret. now rewrite H. Qed.

Lemma interpret_normal (p : F32.float32) :
  F32.gt p (F32.Fin 0.5) = false -> interpret p =
    {| diagnosis := NORMAL; confidence := F32.sub (F32.Fin 1) p;
       color := "green" |}.
Proof. intros H. unfold interpret. now rewrite H. Qed.

Lemma diagnosis_cases (p : F32.float32) :
  diagnosis (interpret p) = PNEUMONIA \/ diagnosis (interpret p) = NORMAL.
Proof.
  unfold interpret. destruct (F32.gt p (F32.Fin 0.5)); simpl; auto.
Qed.

(** Order goals over one rational, by its numerator and denominator. *)
Ltac q_linear p :=
  destruct p as [pn pd];
  unfold Qle, Qlt, Qminus, Qplus, Qopp in *; cbn [Qnum Qden] in *;
  rewrite ?Pos2Z.inj_mul in *; nia.

Lemma Qmax_high (p : Q) : 0.5 < p -> Qmax p (1 - p) == p.
Proof. intros H. apply Q.max_l. q_linear p. Qed.

Lemma Qmax_low (p : Q) : p <= 0.5 -> Qmax p (1 - p) == 1 - p.
Proof. intros H. apply Q.max_r. q_linear p. Qed.

(** The interpretation of a finite score above 0.5, in full. *)
Lemma interpret_high (p : Q) :
  0.5 < p -> p <= 1 ->
  interpret (F32.Fin p) =
    {| diagnosis := PNEUMONIA; confidence := F32.Fin p; color := "red" |} /\
  F32.sub (F32.Fin 1) (F32.Fin p) = F32.Fin (F32.round_finite (1 - p)) /\
  F32.round_finite (1 - p) <= 0.5.
Proof.
  intros Hhi H1.
  destruct (F32Facts.sub_one_high p Hhi H1) as (Es & _ & Hd).
  split; [| now split].
  apply interpret_pneumonia. now apply F32Facts.gt_finite.
Qed.

(** The interpretation of a finite score of at most 0.5, in full. *)
Lemma interpret_low (p : Q) :
  0 <= p -> p <= 0.5 ->
  interpret (F32.Fin p) =
    {| diagnosis := NORMAL;
       confidence := F32.Fin (F32.round_finite (1 - p));
       color := "green" |} /\
  F32.sub (F32.Fin 1) (F32.Fin p) = F32.Fin (F32.round_finite (1 - p)) /\
  0.5 <= F32.round_finite (1 - p) /\ F32.round_finite (1 - p) <= 1.
Proof.
  intros H0 Hlo.
  destruct (F32Facts.sub_one_low p H0 Hlo) as (Es & Ha & Hb).
  split; [| now repeat split].
  rewrite <- Es. apply interpret_normal. now apply F32Facts.gt_finite_false.
Qed.

(** C1. For a raw output [p] strictly between 0 and 1 the diagnosis of
    [predict_image] is PNEUMONIA exactly when [p > 0.5] and NORMAL
    otherwise (so NORMAL at [p = 0.5]); the confidence is the larger of
    [p] and [1 - p], the difference being the one the program forms, in
    single precision; it is at least 0.5, is [p] under PNEUMONIA and
    [1 - p] under NORMAL, and is within [2^-25] of the larger of [p] and
    the exact [1 - p].  The label and confidence of [show_predictions]
    follow the same rule. *)
Theorem diagnosis_threshold_confidence (p : Q) (Hp : 0 < p /\ p < 1) :
  (diagnosis (interpret (F32.Fin p)) = PNEUMONIA <-> 0.5 < p) /\
  (diagnosis (interpret (F32.Fin p)) = NORMAL <-> p <= 0.5) /\
  (exists c d,
     confidence (interpret (F32.Fin p)) = F32.Fin c /\
     F32.sub (F32.Fin 1) (F32.Fin p) = F32.Fin d /\
     c == Qmax p d /\
     0.5 <= c /\
     (diagnosis (interpret (F32.Fin p)) = PNEUMONIA -> c = p) /\
     (diagnosis (interpret (F32.Fin p)) = NORMAL -> c = d) /\
     Qabs (c - Qmax p (1 - p)) <= F32.pow2 (-25)) /\
  (pred_label (F32.Fin p) = "Pneumonia" <-> 0.5 < p) /\
  sample_confidence (F32.Fin p) = confidence (interpret (F32.Fin p)).
Proof.
  destruct Hp as [H0 H1].
  assert (Hs : sample_confidence (F32.Fin p) = confidence (interpret (F32.Fin p))).
  { unfold sample_confidence, predicted_class, interpret.
    destruct (F32.gt (F32.Fin p) (F32.Fin 0.5)); reflexivity. }
  assert (Hl : pred_label (F32.Fin p) = "Pneumonia" <-> 0.5 < p).
  { unfold pred_label, predicted_class. rewrite <- F32Facts.gt_finite.
    destruct (F32.gt (F32.Fin p) (F32.Fin 0.5)); simpl; split; congruence. }
  destruct (Qlt_le_dec 0.5 p) as [Hhi | Hlo].
  - destruct (interpret_high p Hhi (Qlt_le_weak _ _ H1)) as (Ei & Es & Hd).
    rewrite Ei. unfold PNEUMONIA, NORMAL. cbn [diagnosis confidence].
    split; [tauto |]. split.
    { split; [intros E; discriminate E
             | intros Hle; exfalso; exact (Qlt_not_le _ _ Hhi Hle)]. }
    split; [| split; [exact Hl | now rewrite Hs, Ei]].
    exists p, (F32.round_finite (1 - p)).
    split; [reflexivity |]. split; [exact Es |].
    split.
    { symmetry. apply Q.max_l.
      apply Qle_trans with 0.5; [exact Hd | now apply Qlt_le_weak]. }
    split; [now apply Qlt_le_weak |].
    split; [reflexivity |]. split; [intros E; discriminate E |].
    rewrite (Qmax_high p Hhi).
    assert (Z0 : p - p == 0) by ring. rewrite Z0. discriminate.
  - destruct (interpret_low p (Qlt_le_weak _ _ H0) Hlo) as (Ei & Es & Ha & Hb).
    rewrite Ei. unfold PNEUMONIA, NORMAL. cbn [diagnosis confidence].
    split.
    { split; [intros E; discriminate E
             | intros Hlt; exfalso; exact (Qlt_not_le _ _ Hlt Hlo)]. }
    split; [tauto |].
    split; [| split; [exact Hl | now rewrite Hs, Ei]].
    exists (F32.round_finite (1 - p)), (F32.round_finite (1 - p)).
    split; [reflexivity |]. split; [exact Es |].
    split.
    { symmetry. apply Q.max_r. now apply Qle_trans with 0.5. }
    split; [exact Ha |].
    split; [intros E; discriminate E |]. split; [reflexivity |].
    rewrite (Qmax_low p Hlo). now apply F32Facts.sub_one_error.
Qed.

Lemma diagnosis_threshold_confidence_witness :
  (diagnosis (interpret (F32.Fin 0.5)) = NORMAL <-> 0.5 <= 0.5) /\
  (pred_label (F32.Fin 0.5) = "Pneumonia" <-> 0.5 < 0.5).
Proof.
  assert (Hp : 0 < 0.5 /\ 0.5 < 1) by (split; reflexivity).
  pose proof (diagnosis_threshold_confidence 0.5 Hp) as H.
  split; [exact (proj1 (proj2 H)) | exact (proj1 (proj2 (proj2 (proj2 H))))].
Defined.

(** Just below one half, at [0.5 - 2^-25], the exact complement is not a
    single-precision number and the confidence is 0.5. *)
Example confidence_just_below_half :
  F32.sub (F32.Fin 1) (F32.Fin (0.5 - 1 / inject_Z (2 ^ 25))) =
    F32.Fin (inject_Z 8388608 * F32.pow2 (-24)) /\
  inject_Z 8388608 * F32.pow2 (-24) == 0.5 /\
  ~ 1 - (0.5 - 1 / inject_Z (2 ^ 25)) == 0.5.
Proof.
  split; [vm_compute; reflexivity |]. split; [reflexivity | discriminate].
Qed.

(** ** Facts about the string operations *)

Module StrFacts.
Import Str.

Lemma endswith_refl (s : string) : endswith s s = true.
Proof.
  destruct s as [| c s]; [reflexivity |].
  cbn [endswith]. now rewrite String.eqb_refl.
Qed.

(** [endswith] finds exactly the strings that end in the suffix. *)
Lemma endswith_iff (s suffix : string) :
  endswith s suffix = true <-> exists pre, s = (pre ++ suffix)%string.
Proof.
  induction s as [| c s IH]; cbn [endswith].
  - rewrite orb_false_r, String.eqb_eq. split.
    + intros <-. now exists "".
    + intros [pre E]. destruct pre; simpl in E; [now symmetry | discriminate].
  - rewrite orb_true_iff, String.eqb_eq, IH. split.
    + intros [<- | [pre ->]]; [now exists "" | now exists (String c pre)].
    + intros [[| c' pre] E]; simpl in E.
      * now left.
      * right. exists pre. now injection E.
Qed.

Lemma endswith_length (s suffix : string) :
  endswith s suffix = true -> (String.length suffix <= String.length s)%nat.
Proof.
  induction s as [| c s IH]; cbn [endswith].
  - rewrite orb_false_r, String.eqb_eq. now intros <-.
  - rewrite orb_true_iff, String.eqb_eq. intros [<- | H]; simpl; auto.
Qed.

(** Of two suffixes of one string, the shorter ends the longer. *)
Lemma suffix_chain (s a b : string) :
  endswith s a = true -> endswith s b = true ->
  (String.length a <= String.length b)%nat -> endswith b a = true.
Proof.
  induction s as [| c s IH]; cbn [endswith]; intros Ha Hb Hlen.
  - rewrite orb_false_r, String.eqb_eq in Ha, Hb. subst. reflexivity.
  - rewrite orb_true_iff, String.eqb_eq in Ha, Hb.
    destruct Hb as [<- | Hb].
    + destruct Ha as [<- | Ha]; cbn [endswith].
      * now rewrite String.eqb_refl.
      * rewrite Ha. apply orb_true_r.
    + destruct Ha as [<- | Ha].
      * apply endswith_length in Hb. simpl in Hlen. lia.
      * now apply IH.
Qed.

(** No name ends in two different extensions of the CLI. *)
Lemma extensions_exclusive (s : string) :
  (endswith s ".jpg" && endswith s ".jpeg" = false) /\
  (endswith s ".jpg" && endswith s ".png" = false) /\
  (endswith s ".jpeg" && endswith s ".png" = false).
Proof.
  repeat split; apply not_true_iff_false; intros H;
    apply andb_true_iff in H; destruct H as [H1 H2].
  - pose proof (suffix_chain s ".jpg" ".jpeg" H1 H2) as C. simpl in C.
    specialize (C ltac:(lia)). discriminate C.
  - pose proof (suffix_chain s ".png" ".jpg" H2 H1) as C. simpl in C.
    specialize (C ltac:(lia)). discriminate C.
  - pose proof (suffix_chain s ".png" ".jpeg" H2 H1) as C. simpl in C.
    specialize (C ltac:(lia)). discriminate C.
Qed.

End StrFacts.

(** ** Resolution of the path arguments *)

Section Paths.
Variable fs : FileSystem.

(** The accumulator of the loop only grows at its end. *)
Lemma collect_step_app (acc : list string) (path : string) :
  collect_step fs acc path = acc ++ collect_step fs [] path.
Proof.
  unfold collect_step, extensions.
  destruct (isdir fs path); [| destruct (isfile fs path)]; simpl.
  - now rewrite <- !app_assoc.
  - reflexivity.
  - now rewrite app_nil_r.
Qed.

Lemma collect_from (acc : list string) (images : list string) :
  fold_left (collect_step fs) images acc =
  acc ++ flat_map (collect_step fs []) images.
Proof.
  revert acc. induction images as [| path images IH]; intros acc; simpl.
  - now rewrite app_nil_r.
  - rewrite IH, collect_step_app. now rewrite <- app_assoc.
Qed.

Lemma collect_image_paths_flat_map (images : list string) :
  collect_image_paths fs images = flat_map (collect_step fs []) images.
Proof. unfold collect_image_paths. now rewrite collect_from. Qed.

Lemma collect_step_dir (path : string) :
  isdir fs path = true ->
  collect_step fs [] path =
    children_with fs path ".jpg" ++ children_with fs path ".jpeg"
      ++ children_with fs path ".png".
Proof.
  intros H. unfold collect_step, extensions. rewrite H. simpl.
  now rewrite <- app_assoc.
Qed.

Lemma isdir_not_isfile (path : string) :
  isdir fs path = true -> isfile fs path = false.
Proof. unfold isdir, isfile. now destruct (fs path) as [[|]|]. Qed.

Lemma collect_step_file (path : string) :
  isfile fs path = true -> collect_step fs [] path = [path].
Proof.
  intros H. unfold collect_step. rewrite H.
  destruct (isdir fs path) eqn:D; [| reflexivity].
  apply isdir_not_isfile in D. congruence.
Qed.

Lemma collect_step_missing (path : string) :
  exists_ fs path = false -> collect_step fs [] path = [].
Proof.
  unfold collect_step, exists_, isdir, isfile.
  now destruct (fs path) as [[|]|].
Qed.
End Paths.

(** Three filters that exclude each other split the filter of their
    disjunction, up to the order of the elements. *)
Lemma filter_three_way {A : Type} (p1 p2 p3 : A -> bool) (l : list A) :
  (forall x, p1 x && p2 x = false /\ p1 x && p3 x = false /\
             p2 x && p3 x = false) ->
  Permutation (filter p1 l ++ filter p2 l ++ filter p3 l)
    (filter (fun x => p1 x || (p2 x || (p3 x || false))) l).
Proof.
  intros Hex. induction l as [| a l IH]; simpl; [constructor |].
  destruct (Hex a) as (H12 & H13 & H23).
  destruct (p1 a), (p2 a), (p3 a); simpl in *; try discriminate.
  - now apply perm_skip.
  - symmetry. apply Permutation_cons_app. now symmetry.
  - symmetry. rewrite app_assoc. apply Permutation_cons_app.
    rewrite <- app_assoc. now symmetry.
  - exact IH.
Qed.


Section PathClaims.
Variable fs : FileSystem.

(** C3 (amended). A directory argument resolves to exactly its children
    whose names end, in any letter case, in .jpg, .jpeg or .png, each once
    and nothing else; the list holds the .jpg children first, then the
    .jpeg children, then the .png children, each group in the order of the
    directory listing. *)
Theorem directory_children_by_extension (path : string) :
  isdir fs path = true ->
  collect_image_paths fs [path] =
    map (OsPath.join path)
      (filter (fun f => Str.endswith (Str.lower f) ".jpg") (listdir fs path) ++
       filter (fun f => Str.endswith (Str.lower f) ".jpeg") (listdir fs path) ++
       filter (fun f => Str.endswith (Str.lower f) ".png") (listdir fs path)) /\
  Permutation (collect_image_paths fs [path]) (listed_images fs path).
Proof.
  intros Hdir.
  assert (E : collect_image_paths fs [path] =
    map (OsPath.join path)
      (filter (fun f => Str.endswith (Str.lower f) ".jpg") (listdir fs path) ++
       filter (fun f => Str.endswith (Str.lower f) ".jpeg") (listdir fs path) ++
       filter (fun f => Str.endswith (Str.lower f) ".png") (listdir fs path))).
  { rewrite collect_image_paths_flat_map. simpl. rewrite app_nil_r.
    rewrite (collect_step_dir fs path Hdir). unfold children_with.
    now rewrite !map_app. }
  split; [exact E |].
  rewrite E. unfold listed_images. apply Permutation_map.
  apply (filter_three_way
           (fun f => Str.endswith (Str.lower f) ".jpg")
           (fun f => Str.endswith (Str.lower f) ".jpeg")
           (fun f => Str.endswith (Str.lower f) ".png")).
  intros f. apply StrFacts.extensions_exclusive.
Qed.

End PathClaims.

Lemma directory_children_by_extension_witness :
  Permutation (collect_image_paths Demo.fs ["scans"])
    (listed_images Demo.fs "scans").
Proof.
  exact (proj2 (directory_children_by_extension Demo.fs "scans" eq_refl)).
Defined.

(** C3, as stated, fails: a listing that returns a .png name before a
    .jpg name is not resolved in the order of the listing. *)
Lemma directory_order_counterexample :
  isdir Demo.fs "scans" = true /\
  listdir Demo.fs "scans" = ["a.png"; "b.jpg"; "notes.txt"] /\
  collect_image_paths Demo.fs ["scans"] = ["scans/b.jpg"; "scans/a.png"] /\
  listed_images Demo.fs "scans" = ["scans/a.png"; "scans/b.jpg"] /\
  collect_image_paths Demo.fs ["scans"] <> listed_images Demo.fs "scans".
Proof.
  repeat split; try reflexivity.
  intros H. vm_compute in H. discriminate H.
Qed.

(** ** Laws of the effect monad *)

Section MonadFacts.
Context {A B : Type}.

Lemma bind_ok (m : M A) (f : A -> M B) (a : A) :
  outcome m = inr a ->
  bind m f = (trace m ++ trace (f a), outcome (f a)).
Proof.
  destruct m as [t r]. unfold outcome, trace. simpl. intros ->.
  now destruct (f a).
Qed.

Lemma bind_raised (m : M A) (f : A -> M B) (e : Exception) :
  outcome m = inl e -> bind m f = (trace m, inl e).
Proof.
  destruct m as [t r]. unfold outcome, trace. simpl. now intros ->.
Qed.

Lemma trace_bind_incl (m : M A) (f : A -> M B) (ev : Event) :
  In ev (trace m) -> In ev (trace (bind m f)).
Proof.
  destruct m as [t [e | a]]; simpl; [easy |].
  destruct (f a) as [t2 r]. simpl. intros H. apply in_or_app. now left.
Qed.

Lemma trace_bind_cases (m : M A) (f : A -> M B) (ev : Event) :
  In ev (trace (bind m f)) ->
  In ev (trace m) \/ exists a, outcome m = inr a /\ In ev (trace (f a)).
Proof.
  destruct m as [t [e | a]]; simpl; [now left |].
  destruct (f a) as [t2 r] eqn:E. simpl. intros H.
  apply in_app_or in H. destruct H as [H | H]; [now left |].
  right. exists a. rewrite E. now split.
Qed.

End MonadFacts.

(** ** Loading the model and the entry point *)

Section CliClaims.
Variable fs : FileSystem.
Variable decode_rgb : list nat -> Exception + Image.
Variable resize : nat * nat -> Image -> Image.
Variable keras_load_model : string -> Exception + Model.
Variable fmt_percent : F32.float32 -> string.
Variable fmt_fixed4 : F32.float32 -> string.

Local Abbreviation load_model_ := (load_model fs keras_load_model).
Local Abbreviation predict_image_ :=
  (predict_image fs decode_rgb resize fmt_percent fmt_fixed4).
Local Abbreviation main_ :=
  (main fs decode_rgb resize keras_load_model fmt_percent fmt_fixed4).

Lemma load_model_missing (model_path : string) :
  exists_ fs model_path = false ->
  load_model_ model_path =
    ([], inl (FileNotFoundError ("Model not found: " ++ model_path))).
Proof. intros H. unfold load_model. now rewrite H. Qed.

Lemma load_model_loaded (model_path : string) (model : Model) :
  exists_ fs model_path = true ->
  keras_load_model model_path = inr model ->
  load_model_ model_path =
    ([Print ("Loading model from " ++ model_path ++ "...");
      LoadModel model_path;
      Print "Model loaded successfully!"], inr model).
Proof. intros H K. unfold load_model. rewrite H. simpl. now rewrite K. Qed.

Lemma load_model_rejected (model_path : string) (e : Exception) :
  exists_ fs model_path = true ->
  keras_load_model model_path = inl e ->
  load_model_ model_path =
    ([Print ("Loading model from " ++ model_path ++ "...");
      LoadModel model_path], inl e).
Proof. intros H K. unfold load_model. rewrite H. simpl. now rewrite K. Qed.

(** The three ways [load_model] can end. *)
Lemma load_model_cases (model_path : string) :
  (exists_ fs model_path = false /\
   load_model_ model_path =
     ([], inl (FileNotFoundError ("Model not found: " ++ model_path)))) \/
  (exists e, exists_ fs model_path = true /\
   load_model_ model_path =
     ([Print ("Loading model from " ++ model_path ++ "...");
       LoadModel model_path], inl e)) \/
  (exists model, exists_ fs model_path = true /\
   keras_load_model model_path = inr model /\
   load_model_ model_path =
     ([Print ("Loading model from " ++ model_path ++ "...");
       LoadModel model_path;
       Print "Model loaded successfully!"], inr model)).
Proof.
  destruct (exists_ fs model_path) eqn:H.
  - destruct (keras_load_model model_path) as [e | model] eqn:K.
    + right; left. exists e. split; [reflexivity |]. now apply load_model_rejected.
    + right; right. exists model. repeat split; auto. now apply load_model_loaded.
  - left. split; [reflexivity |]. now apply load_model_missing.
Qed.

(** C5. When no file exists at the model path, given with [--model] or
    left at its default, [load_model] raises [FileNotFoundError]; [main]
    does not catch it, so the program ends with that error, having called
    neither the framework's loader nor anything else. *)
Theorem missing_model_is_fatal (args : Args) :
  exists_ fs (args_model args) = false ->
  load_model_ (args_model args) =
    raise (FileNotFoundError ("Model not found: " ++ args_model args)) /\
  main_ args =
    raise (FileNotFoundError ("Model not found: " ++ args_model args)) /\
  trace (main_ args) = [] /\
  (forall images, args = default_args images ->
     outcome (main_ args) =
       inl (FileNotFoundError "Model not found: best_model.keras")).
Proof.
  intros H.
  pose proof (load_model_missing (args_model args) H) as L.
  assert (Hm : main_ args =
    raise (FileNotFoundError ("Model not found: " ++ args_model args))).
  { unfold main. now rewrite L. }
  repeat split; auto.
  - now rewrite Hm.
  - intros images ->. now rewrite Hm.
Qed.

(** C10. [main] loads the model before it looks at the image arguments:
    with a missing model file it ends in [FileNotFoundError] whatever the
    arguments resolve to, also to nothing; and the line "No valid images
    found!" is printed only by a run whose model load succeeded. *)
Theorem model_loaded_before_paths (args : Args) :
  (exists_ fs (args_model args) = false ->
   outcome (main_ args) =
     inl (FileNotFoundError ("Model not found: " ++ args_model args)) /\
   ~ In (Print "No valid images found!") (trace (main_ args))) /\
  (In (Print "No valid images found!") (trace (main_ args)) ->
   exists model, load_model_ (args_model args) =
     ([Print ("Loading model from " ++ args_model args ++ "...");
       LoadModel (args_model args);
       Print "Model loaded successfully!"], inr model)).
Proof.
  split.
  - intros H. unfold main. rewrite (load_model_missing _ H). simpl. auto.
  - intros Hin.
    destruct (load_model_cases (args_model args))
      as [[_ L] | [(e & _ & L) | (model & _ & _ & L)]].
    + unfold main in Hin. rewrite L in Hin. simpl in Hin. contradiction.
    + unfold main in Hin. rewrite L in Hin. simpl in Hin.
      destruct Hin as [E | [E | []]]; discriminate E.
    + now exists model.
Qed.

(** C4 (amended). When the arguments resolve to no image path and the
    model has loaded, the CLI prints "No valid images found!", opens no
    image, makes no prediction call and returns normally. *)
Theorem no_images_reported (args : Args) (model : Model) :
  outcome (load_model_ (args_model args)) = inr model ->
  collect_image_paths fs (args_images args) = [] ->
  main_ args =
    (trace (load_model_ (args_model args)) ++ [Print "No valid images found!"],
     inr tt) /\
  (forall ev, In ev (trace (main_ args)) ->
     match ev with Predict _ | OpenImage _ | Show _ _ => False | _ => True end).
Proof.
  intros L C.
  assert (Hm : main_ args =
    (trace (load_model_ (args_model args)) ++ [Print "No valid images found!"],
     inr tt)).
  { unfold main. rewrite (bind_ok _ _ model L). now rewrite C. }
  split; [exact Hm |].
  intros ev Hin. rewrite Hm in Hin. unfold trace in Hin. simpl in Hin.
  apply in_app_or in Hin. destruct Hin as [Hin | [<- | []]]; [| exact I].
  destruct (load_model_cases (args_model args))
    as [[_ E] | [(e & _ & E) | (m & _ & _ & E)]];
    rewrite E in Hin; simpl in Hin;
    repeat (destruct Hin as [<- | Hin]; [exact I |]); contradiction.
Qed.

(** C9. A path argument that names an existing regular file is appended
    to the candidate list as it is, whatever its extension, and a run
    whose only candidate it is passes it to [predict_image]. *)
Theorem named_file_taken_unfiltered (path : string) :
  isfile fs path = true ->
  (forall image_paths, collect_step fs image_paths path = image_paths ++ [path]) /\
  collect_image_paths fs [path] = [path] /\
  (forall images, In path images -> In path (collect_image_paths fs images)) /\
  (forall args, args_images args = [path] ->
     main_ args =
       bind (load_model_ (args_model args)) (fun model =>
         bind (predict_image_ model path (negb (args_no_show args)))
           (fun _ => ret tt))) /\
  (forall args model, args_images args = [path] ->
     outcome (load_model_ (args_model args)) = inr model ->
     In (OpenImage path) (trace (main_ args))).
Proof.
  intros Hfile.
  assert (S1 : collect_step fs [] path = [path]) by now apply collect_step_file.
  assert (C1 : collect_image_paths fs [path] = [path]).
  { rewrite collect_image_paths_flat_map. simpl. now rewrite S1. }
  assert (Hm : forall args, args_images args = [path] ->
     main_ args =
       bind (load_model_ (args_model args)) (fun model =>
         bind (predict_image_ model path (negb (args_no_show args)))
           (fun _ => ret tt))).
  { intros args E. unfold main. now rewrite E, C1. }
  repeat split.
  - intros acc. now rewrite collect_step_app, S1.
  - exact C1.
  - intros images Hin. rewrite collect_image_paths_flat_map.
    apply in_flat_map. exists path. split; [exact Hin |].
    rewrite S1. now left.
  - exact Hm.
  - intros args model E L. rewrite (Hm args E), (bind_ok _ _ model L).
    unfold trace at 1. simpl. apply in_or_app. right.
    apply trace_bind_incl. unfold predict_image.
    apply trace_bind_incl. unfold preprocess_image.
    apply trace_bind_incl. simpl. now left.
Qed.

End CliClaims.

Lemma missing_model_is_fatal_witness :
  demo_main_no_model (default_args ["scans"]) =
    raise (FileNotFoundError "Model not found: best_model.keras").
Proof.
  exact (proj1 (proj2
    (missing_model_is_fatal Demo.fs_no_model Demo.decode_rgb Demo.resize
       Demo.keras_load_model Demo.fmt Demo.fmt (default_args ["scans"])
       eq_refl))).
Defined.

Lemma model_loaded_before_paths_witness :
  collect_image_paths Demo.fs_no_model ["nowhere.jpg"] = [] /\
  outcome (demo_main_no_model (default_args ["nowhere.jpg"])) =
    inl (FileNotFoundError "Model not found: best_model.keras").
Proof.
  split; [reflexivity |].
  exact (proj1 (proj1
    (model_loaded_before_paths Demo.fs_no_model Demo.decode_rgb Demo.resize
       Demo.keras_load_model Demo.fmt Demo.fmt (default_args ["nowhere.jpg"]))
    eq_refl)).
Defined.

(** C4, as stated, fails: the arguments resolve to nothing, yet the run
    ends in an error and prints no message, because the model file is
    missing and the model is loaded first. *)
Lemma no_images_without_model_counterexample :
  collect_image_paths Demo.fs_no_model
    (args_images (default_args ["nowhere.jpg"])) = [] /\
  outcome (demo_main_no_model (default_args ["nowhere.jpg"])) <> inr tt /\
  ~ In (Print "No valid images found!")
      (trace (demo_main_no_model (default_args ["nowhere.jpg"]))).
Proof.
  split; [reflexivity |]. split.
  - intros H. vm_compute in H. discriminate H.
  - intros H. vm_compute in H. exact H.
Qed.

Lemma no_images_reported_witness :
  demo_main (default_args ["nowhere.jpg"]) =
    ([Print "Loading model from best_model.keras...";
      LoadModel "best_model.keras";
      Print "Model loaded successfully!";
      Print "No valid images found!"], inr tt).
Proof.
  exact (proj1
    (no_images_reported Demo.fs Demo.decode_rgb Demo.resize
       Demo.keras_load_model Demo.fmt Demo.fmt (default_args ["nowhere.jpg"])
       Demo.always_ill eq_refl eq_refl)).
Defined.

Lemma named_file_taken_unfiltered_witness :
  is_image_name "notes.txt" = false /\
  collect_image_paths Demo.fs ["notes.txt"] = ["notes.txt"] /\
  In (OpenImage "notes.txt") (trace (demo_main (default_args ["notes.txt"]))).
Proof.
  pose proof (named_file_taken_unfiltered Demo.fs Demo.decode_rgb Demo.resize
    Demo.keras_load_model Demo.fmt Demo.fmt "notes.txt" eq_refl) as H.
  split; [reflexivity |]. split.
  - exact (proj1 (proj2 H)).
  - exact (proj2 (proj2 (proj2 (proj2 H))) (default_args ["notes.txt"])
             Demo.always_ill eq_refl eq_refl).
Defined.

(** ** Batch prediction *)

Lemma count_diagnosis_length (d : string) (results : list Result) :
  count_diagnosis d results =
  List.length (filter (fun r => String.eqb (r_diagnosis r) d) results).
Proof.
  unfold count_diagnosis.
  induction (filter (fun r => String.eqb (r_diagnosis r) d) results)
    as [| r l IH]; simpl; [reflexivity | now rewrite IH].
Qed.

(** When every diagnosis is one of the two labels, the two counts of the
    summary add up to the number of results. *)
Lemma counts_add_up (results : list Result) :
  Forall (fun r => r_diagnosis r = "NORMAL" \/ r_diagnosis r = "PNEUMONIA")
    results ->
  (count_diagnosis "NORMAL" results + count_diagnosis "PNEUMONIA" results
   = List.length results)%nat.
Proof.
  rewrite !count_diagnosis_length.
  induction 1 as [| r l [E | E] _ IH]; simpl; [reflexivity | |];
    rewrite E; simpl; lia.
Qed.

Section BatchClaims.
Variable fs : FileSystem.
Variable decode_rgb : list nat -> Exception + Image.
Variable resize : nat * nat -> Image -> Image.
Variable fmt_percent : F32.float32 -> string.
Variable fmt_fixed4 : F32.float32 -> string.
Variable model : Model.

Local Abbreviation predict_image_ :=
  (predict_image fs decode_rgb resize fmt_percent fmt_fixed4 model).
Local Abbreviation batch_entry_ :=
  (batch_entry fs decode_rgb resize fmt_percent fmt_fixed4 model).
Local Abbreviation batch_step_ :=
  (batch_step fs decode_rgb resize fmt_percent fmt_fixed4 model).
Local Abbreviation batch_loop_ :=
  (batch_loop fs decode_rgb resize fmt_percent fmt_fixed4 model).
Local Abbreviation predict_batch_ :=
  (predict_batch fs decode_rgb resize fmt_percent fmt_fixed4 model).

(** Every run of [predict_image] starts by opening the image. *)
Lemma predict_image_opens (image_path : string) (show : bool) :
  In (OpenImage image_path) (trace (predict_image_ image_path show)).
Proof.
  unfold predict_image. apply trace_bind_incl.
  unfold preprocess_image. apply trace_bind_incl. simpl. now left.
Qed.

(** What [predict_image] returns is the interpretation of the raw score. *)
Lemma predict_image_result (image_path : string) (show : bool)
    (d : string) (c raw : F32.float32) :
  outcome (predict_image_ image_path show) = inr (d, c, raw) ->
  d = diagnosis (interpret raw) /\ c = confidence (interpret raw).
Proof.
  unfold predict_image, preprocess_image, open_rgb, run_predict, call.
  destruct (fs image_path) as [[content | entries] |]; simpl;
    try discriminate.
  destruct (decode_rgb content) as [e | img]; simpl; try discriminate.
  destruct (model _) as [e | rows]; simpl; try discriminate.
  destruct (first_output rows) as [e | prediction]; simpl; try discriminate.
  destruct show; simpl; intros E; injection E as <- <- <-; auto.
Qed.

Lemma batch_entry_labels (img_path : string) :
  Forall (fun r => r_diagnosis r = "NORMAL" \/ r_diagnosis r = "PNEUMONIA")
    (batch_entry_ img_path).
Proof.
  unfold batch_entry.
  destruct (outcome (predict_image_ img_path false))
    as [e | [[d c] raw]] eqn:E; constructor; [| constructor].
  apply predict_image_result in E. destruct E as [-> _]. simpl.
  destruct (diagnosis_cases raw) as [-> | ->]; auto.
Qed.

(** One turn of the loop never raises: it appends the entry of the image,
    or prints the error and leaves the results as they were. *)
Lemma batch_step_spec (total i : nat) (img_path : string)
    (results : list Result) :
  exists t,
    batch_step_ total i img_path results =
      (t, inr (results ++ batch_entry_ img_path)) /\
    In (Print ("[" ++ Str.of_nat i ++ "/" ++ Str.of_nat total ++ "] "
               ++ OsPath.basename img_path)) t /\
    In (OpenImage img_path) t /\
    (forall e, outcome (predict_image_ img_path false) = inl e ->
       In (Print ("  Error: " ++ str e)) t).
Proof.
  pose proof (predict_image_opens img_path false) as Hopen.
  unfold batch_step, batch_entry.
  destruct (predict_image_ img_path false) as [t [e | [[d c] raw]]] eqn:E;
    unfold trace, outcome in *; simpl in *.
  - eexists. split; [rewrite app_nil_r; reflexivity |].
    split; [now left |]. split.
    + right. apply in_or_app. now left.
    + intros e' [= <-]. right. apply in_or_app. right. now left.
  - eexists. split; [reflexivity |].
    split; [now left |]. split.
    + right. apply in_or_app. now left.
    + intros e' [=].
Qed.

Lemma batch_loop_spec (total : nat) (image_paths : list string) :
  forall (i : nat) (results : list Result),
  exists t,
    batch_loop_ total i image_paths results =
      (t, inr (results ++ flat_map batch_entry_ image_paths)) /\
    (forall k p, nth_error image_paths k = Some p ->
       In (Print ("[" ++ Str.of_nat (i + k) ++ "/" ++ Str.of_nat total ++ "] "
                  ++ OsPath.basename p)) t) /\
    (forall p, In p image_paths -> In (OpenImage p) t) /\
    (forall p e, In p image_paths ->
       outcome (predict_image_ p false) = inl e ->
       In (Print ("  Error: " ++ str e)) t).
Proof.
  induction image_paths as [| img_path rest IH]; intros i results.
  - exists []. simpl. rewrite app_nil_r. split; [reflexivity |].
    split; [| split].
    + intros [| k] p; discriminate.
    + contradiction.
    + contradiction.
  - destruct (batch_step_spec total i img_path results)
      as (t1 & E1 & P1 & O1 & F1).
    destruct (IH (S i) (results ++ batch_entry_ img_path))
      as (t2 & E2 & P2 & O2 & F2).
    exists (t1 ++ t2). cbn [batch_loop]. rewrite E1. cbn [bind].
    rewrite E2. split; [| split; [| split]].
    + cbn [flat_map]. now rewrite app_assoc.
    + intros [| k] p Hk; apply in_or_app.
      * injection Hk as <-. left. now rewrite Nat.add_0_r.
      * right. rewrite Nat.add_succ_r. now apply P2.
    + intros p [<- | Hin]; apply in_or_app; [now left | right; now apply O2].
    + intros p e [<- | Hin] He; apply in_or_app;
        [left; now apply F1 | right; now apply (F2 p)].
Qed.

Lemma batch_entries_labels (image_paths : list string) :
  Forall (fun r => r_diagnosis r = "NORMAL" \/ r_diagnosis r = "PNEUMONIA")
    (flat_map batch_entry_ image_paths).
Proof.
  induction image_paths as [| p rest IH]; simpl; [constructor |].
  apply Forall_app. split; [apply batch_entry_labels | exact IH].
Qed.

(** The results hold one entry per image on which [predict_image]
    returned, in the order of the input. *)
Lemma batch_entries_images (image_paths : list string) :
  map r_image (flat_map batch_entry_ image_paths) =
  map OsPath.basename
    (filter (fun p => succeeded (predict_image_ p false)) image_paths).
Proof.
  induction image_paths as [| p rest IH]; simpl; [reflexivity |].
  rewrite map_app, IH. unfold batch_entry, succeeded.
  now destruct (outcome (predict_image_ p false)) as [e | [[d c] raw]].
Qed.

(** C2. [predict_batch] never raises, whatever the images do.  Every
    image of the list is announced and opened, in particular those after a
    failing one; the error of a failing image is printed; the results are
    the images on which [predict_image] returned, in input order; and the
    run ends with a summary whose NORMAL and PNEUMONIA counts add up to
    the number of those images, failed ones being in neither count. *)
Theorem batch_survives_failures (image_paths : list string) :
  exists results,
    outcome (predict_batch_ image_paths) = inr results /\
    (forall k p, nth_error image_paths k = Some p ->
       In (Print ("[" ++ Str.of_nat (S k) ++ "/"
                  ++ Str.of_nat (List.length image_paths) ++ "] "
                  ++ OsPath.basename p))
          (trace (predict_batch_ image_paths))) /\
    (forall p, In p image_paths ->
       In (OpenImage p) (trace (predict_batch_ image_paths))) /\
    (forall p e, In p image_paths ->
       outcome (predict_image_ p false) = inl e ->
       In (Print ("  Error: " ++ str e)) (trace (predict_batch_ image_paths))) /\
    map r_image results =
      map OsPath.basename
        (filter (fun p => succeeded (predict_image_ p false)) image_paths) /\
    (count_diagnosis "NORMAL" results + count_diagnosis "PNEUMONIA" results
     = List.length
         (filter (fun p => succeeded (predict_image_ p false)) image_paths))%nat /\
    exists before,
      trace (predict_batch_ image_paths) =
        before ++
        [Print (Str.nl ++ "Summary:");
         Print ("  Normal: " ++ Str.of_nat (count_diagnosis "NORMAL" results));
         Print ("  Pneumonia: "
                ++ Str.of_nat (count_diagnosis "PNEUMONIA" results))].
Proof.
  destruct (batch_loop_spec (List.length image_paths) image_paths 1 [])
    as (t & E & P & O & F).
  simpl in E.
  exists (flat_map batch_entry_ image_paths).
  assert (Hrun : predict_batch_ image_paths =
    (Print (Str.nl ++ "Processing " ++ Str.of_nat (List.length image_paths)
            ++ " images..." ++ Str.nl) :: t ++
     [Print (Str.nl ++ "Summary:");
      Print ("  Normal: " ++ Str.of_nat
               (count_diagnosis "NORMAL" (flat_map batch_entry_ image_paths)));
      Print ("  Pneumonia: " ++ Str.of_nat
               (count_diagnosis "PNEUMONIA" (flat_map batch_entry_ image_paths)))],
     inr (flat_map batch_entry_ image_paths))).
  { unfold predict_batch. rewrite E. reflexivity. }
  rewrite Hrun. unfold outcome, trace. cbn [fst snd].
  split; [reflexivity |].
  split; [intros k p Hk; right; apply in_or_app; left; now apply (P k p) |].
  split; [intros p Hin; right; apply in_or_app; left; now apply O |].
  split; [intros p e Hin He; right; apply in_or_app; left; now apply (F p) |].
  split; [apply batch_entries_images |].
  split.
  - rewrite (counts_add_up _ (batch_entries_labels image_paths)).
    rewrite <- (length_map r_image), batch_entries_images.
    now rewrite length_map.
  - eexists (_ :: t). reflexivity.
Qed.

End BatchClaims.

(** One unreadable image among three: the two others are diagnosed and
    counted, the unreadable one is reported and left out. *)
Example batch_with_unreadable_image :
  predict_batch Demo.fs_batch Demo.decode_rgb Demo.resize Demo.fmt Demo.fmt
    Demo.first_pixel ["ward/a.png"; "ward/bad.png"; "ward/c.png"] =
  ([Print (Str.nl ++ "Processing 3 images..." ++ Str.nl);
    Print "[1/3] a.png"; OpenImage "ward/a.png";
    Predict [repeat (repeat (repeat (inject_Z 7 / 255.0) 3) 150) 150];
    Print (Str.nl ++ "Prediction Results:"); Print "  Diagnosis: NORMAL";
    Print "  Confidence: ?"; Print "  Raw Score: ?";
    Print "  → NORMAL (?)";
    Print "[2/3] bad.png"; OpenImage "ward/bad.png";
    Print "  Error: cannot identify image file";
    Print "[3/3] c.png"; OpenImage "ward/c.png";
    Predict [repeat (repeat (repeat (inject_Z 7 / 255.0) 3) 150) 150];
    Print (Str.nl ++ "Prediction Results:"); Print "  Diagnosis: NORMAL";
    Print "  Confidence: ?"; Print "  Raw Score: ?";
    Print "  → NORMAL (?)";
    Print (Str.nl ++ "Summary:"); Print "  Normal: 2"; Print "  Pneumonia: 0"],
   inr [{| r_image := "a.png"; r_diagnosis := "NORMAL";
           r_confidence :=
             F32.sub (F32.Fin 1) (F32.round (inject_Z 7 / 255.0));
           r_raw_score := F32.round (inject_Z 7 / 255.0) |};
        {| r_image := "c.png"; r_diagnosis := "NORMAL";
           r_confidence :=
             F32.sub (F32.Fin 1) (F32.round (inject_Z 7 / 255.0));
           r_raw_score := F32.round (inject_Z 7 / 255.0) |}]).
Proof. vm_compute. reflexivity. Qed.

(** ** The network built by the training script *)

(** C6. [create_model] is the fixed sequence of the specification: four
    blocks of 3x3 convolution, batch normalisation and 2x2 max pooling with
    32, 64, 128 and 128 channels in that order, then flatten, dropout 0.5,
    a dense layer of 512 rectified-linear units, dropout 0.3 and a dense
    sigmoid unit: seventeen layers in all, every convolution with a 3x3
    kernel. *)
Theorem create_model_topology :
  map describe Train.create_model = spec_topology /\
  List.length Train.create_model = 17%nat /\
  (forall n size act shape,
     In (Train.Conv2D n size act shape) Train.create_model ->
     size = (3, 3)%nat /\ act = Train.relu) /\
  map (fun l => match l with Train.Conv2D n _ _ _ => n | _ => 0%nat end)
    (filter (fun l => match l with Train.Conv2D _ _ _ _ => true | _ => false end)
       Train.create_model) = [32; 64; 128; 128]%nat.
Proof.
  split; [| split; [| split]]; try reflexivity.
  intros n size act shape Hin. simpl in Hin.
  repeat (destruct Hin as [E | Hin]; [inversion E; auto |]).
  contradiction.
Qed.

(** ** Preprocessing *)

Section Preprocessing.
Variable decode_rgb : list nat -> Exception + Image.
Variable resize : nat * nat -> Image -> Image.

(** What [preprocess_image] does, by what is at the path. *)
Lemma preprocess_image_file (fs : FileSystem) (image_path : string)
    (content : list nat) (img : Image) :
  fs image_path = Some (File content) ->
  decode_rgb content = inr img ->
  preprocess_image fs decode_rgb resize image_path =
    ([OpenImage image_path],
     inr ([normalize (resize (IMG_SIZE, IMG_SIZE) img)],
          resize (IMG_SIZE, IMG_SIZE) img)).
Proof.
  intros F D. unfold preprocess_image, open_rgb, call. rewrite F, D.
  reflexivity.
Qed.

(** C8. [preprocess_image] is a function of the file it is given: two
    runs on the same file, in worlds that may differ in everything else,
    end the same way and, when they return, return the same normalised
    tensor and image; so do two runs one after the other. *)
Theorem preprocessing_is_deterministic (fs1 fs2 : FileSystem)
    (image_path : string) :
  fs1 image_path = fs2 image_path ->
  preprocess_image fs1 decode_rgb resize image_path =
  preprocess_image fs2 decode_rgb resize image_path /\
  (forall first second,
     outcome (bind (preprocess_image fs1 decode_rgb resize image_path)
                (fun r1 =>
                 bind (preprocess_image fs2 decode_rgb resize image_path)
                   (fun r2 => ret (r1, r2)))) = inr (first, second) ->
     first = second).
Proof.
  intros Hsame.
  assert (E : preprocess_image fs1 decode_rgb resize image_path =
              preprocess_image fs2 decode_rgb resize image_path).
  { unfold preprocess_image, open_rgb. now rewrite Hsame. }
  split; [exact E |].
  intros first second. rewrite E.
  destruct (preprocess_image fs2 decode_rgb resize image_path)
    as [t [e | r]]; simpl; [discriminate |].
  now intros [= <- <-].
Qed.

End Preprocessing.

Lemma preprocessing_is_deterministic_witness :
  preprocess_image Demo.fs Demo.decode_rgb Demo.resize "notes.txt" =
  preprocess_image Demo.fs_no_model Demo.decode_rgb Demo.resize "notes.txt".
Proof.
  exact (proj1 (preprocessing_is_deterministic Demo.decode_rgb Demo.resize
                  Demo.fs Demo.fs_no_model "notes.txt" eq_refl)).
Defined.

(** A uniform grey image: every entry of the tensor is 110/255, and the
    tensor is one image of 150 rows of 150 pixels of 3 channels. *)
Example uniform_grey_tensor :
  exists tensor img,
    outcome (preprocess_image Demo.fs Demo.decode_rgb Demo.resize "notes.txt")
      = inr (tensor, img) /\
    tensor = [repeat (repeat (repeat (inject_Z 110 / 255.0) 3) 150) 150].
Proof.
  eexists. eexists. split; [reflexivity |]. vm_compute. reflexivity.
Qed.

(** ** Early stopping *)

Lemma nth_error_snoc {A : Type} (l : list A) (x y : A) (j : nat) :
  nth_error (l ++ [x]) j = Some y <->
  ((j < List.length l)%nat /\ nth_error l j = Some y) \/
  (j = List.length l /\ y = x).
Proof.
  destruct (Nat.lt_ge_cases j (List.length l)) as [Hlt | Hge].
  - rewrite nth_error_app1 by exact Hlt. split.
    + intros H. left. now split.
    + intros [[_ H] | [H _]]; [exact H | lia].
  - rewrite nth_error_app2 by exact Hge. split.
    + intros H. right.
      destruct (j - List.length l)%nat as [| d] eqn:D; simpl in H.
      * injection H as <-. split; [lia | reflexivity].
      * destruct d; discriminate H.
    + intros [[H _] | [-> ->]]; [lia |].
      now rewrite Nat.sub_diag.
Qed.

Section EarlyStopping.
Variable Weights : Type.
Variable Optimizer : Type.
Variable run_epoch : nat -> Weights * Optimizer -> (Weights * Optimizer) * Q.

Local Abbreviation no_improvement_ := (Fit.no_improvement Weights).
Local Abbreviation stale_ := (Fit.stale Weights).
Local Abbreviation loop_invariant_ := (Fit.loop_invariant Weights).

(** Epochs already in the history are judged the same after one more. *)
Lemma no_improvement_snoc (hist : list (Weights * Q)) (x : Weights * Q)
    (j : nat) :
  (j < List.length hist)%nat ->
  no_improvement_ (hist ++ [x]) j -> no_improvement_ hist j.
Proof.
  intros Hj (i & wi & li & wj & lj & Hij & Hi & Hjj & Hle).
  apply nth_error_snoc in Hi. apply nth_error_snoc in Hjj.
  destruct Hi as [[_ Hi] | [Hi _]]; [| lia].
  destruct Hjj as [[_ Hjj] | [Hjj _]]; [| lia].
  now exists i, wi, li, wj, lj.
Qed.

Lemma stale_snoc (hist : list (Weights * Q)) (x : Weights * Q) (k n : nat) :
  (k + n <= List.length hist)%nat ->
  stale_ (hist ++ [x]) k n -> stale_ hist k n.
Proof.
  intros Hk Hst j Hj. apply (no_improvement_snoc hist x); [lia |].
  now apply Hst.
Qed.

(** An epoch whose loss is strictly below every earlier loss improves. *)
Lemma best_epoch_improves (hist : list (Weights * Q)) (b : nat)
    (wb : Weights) (lb : Q) :
  nth_error hist b = Some (wb, lb) ->
  (forall j wj lj, (j < b)%nat -> nth_error hist j = Some (wj, lj) -> lb < lj) ->
  ~ no_improvement_ hist b.
Proof.
  intros Hb Hstrict (i & wi & li & wj & lj & Hij & Hi & Hj & Hle).
  rewrite Hb in Hj. injection Hj as <- <-.
  apply (Qlt_not_le _ _ (Hstrict i wi li Hij Hi)). exact Hle.
Qed.

Lemma is_improvement_true (current : Q) (best : option Q) :
  Fit.is_improvement current best = true ->
  forall b, best = Some b -> current < b.
Proof.
  intros H b ->. simpl in H. unfold Fit.Qltb in H. now apply Qgtb_true in H.
Qed.

Lemma is_improvement_false (current : Q) (best : option Q) :
  Fit.is_improvement current best = false ->
  exists b, best = Some b /\ b <= current.
Proof.
  destruct best as [b |]; simpl; [| discriminate].
  unfold Fit.Qltb. intros H. apply Qgtb_false in H. now exists b.
Qed.

(** The invariant after an epoch that improved the loss. *)
Lemma invariant_improved (n : nat) (hist : list (Weights * Q))
    (st : Fit.Stopper Weights) (w : Weights) (l : Q) :
  (0 < n)%nat ->
  loop_invariant_ n hist st ->
  Fit.is_improvement l (Fit.best st) = true ->
  loop_invariant_ n (hist ++ [(w, l)])
    {| Fit.wait := 0; Fit.best := Some l; Fit.best_weights := Some w |}.
Proof.
  intros Hn [Hbest Hfresh] Himp.
  assert (Hbelow : forall j wj lj,
            nth_error hist j = Some (wj, lj) -> l < lj).
  { intros j wj lj Hj.
    destruct Hbest as [[-> _] | (b & wb & lb & _ & Eb & _ & Hmin & _)].
    - destruct j; discriminate Hj.
    - apply Qlt_le_trans with lb.
      + now apply (is_improvement_true l _ Himp).
      + now apply (Hmin j wj lj). }
  assert (Hnew : nth_error (hist ++ [(w, l)]) (List.length hist) = Some (w, l)).
  { apply nth_error_snoc. now right. }
  assert (Hstrict : forall j wj lj, (j < List.length hist)%nat ->
            nth_error (hist ++ [(w, l)]) j = Some (wj, lj) -> l < lj).
  { intros j wj lj Hj Hnth. apply nth_error_snoc in Hnth.
    destruct Hnth as [[_ Hnth] | [Hnth _]]; [| lia].
    now apply (Hbelow j wj lj). }
  split.
  - right. exists (List.length hist), w, l. cbn [Fit.wait Fit.best Fit.best_weights].
    repeat split; auto.
    + intros j wj lj Hnth. apply nth_error_snoc in Hnth.
      destruct Hnth as [[_ Hnth] | [_ [= _ ->]]].
      * apply Qlt_le_weak. now apply (Hbelow j wj lj).
      * apply Qle_refl.
    + rewrite length_app. simpl. lia.
  - intros k Hk Hst. rewrite length_app in Hk. simpl in Hk.
    destruct (Nat.le_gt_cases (k + n) (List.length hist)) as [Hin | Hout].
    + apply (Hfresh k Hin). now apply (stale_snoc hist (w, l)).
    + apply (best_epoch_improves _ _ _ _ Hnew Hstrict).
      apply Hst. lia.
Qed.

(** The invariant after an epoch that did not improve the loss and did not
    exhaust the patience. *)
Lemma invariant_waited (n : nat) (hist : list (Weights * Q))
    (st : Fit.Stopper Weights) (w : Weights) (l lb : Q) :
  loop_invariant_ n hist st ->
  Fit.best st = Some lb -> lb <= l ->
  (S (Fit.wait st) < n)%nat ->
  loop_invariant_ n (hist ++ [(w, l)])
    {| Fit.wait := S (Fit.wait st); Fit.best := Fit.best st;
       Fit.best_weights := Fit.best_weights st |}.
Proof.
  intros [Hbest Hfresh] Eb Hle Hwait.
  destruct Hbest as [[_ ->] | (b & wb & lb' & Hb & Eb' & Ew & Hmin & Hstr & Hlen & _)];
    [discriminate Eb |].
  rewrite Eb in Eb'. injection Eb' as <-.
  assert (Hb' : nth_error (hist ++ [(w, l)]) b = Some (wb, lb)).
  { apply nth_error_snoc. left. split; [| exact Hb].
    apply nth_error_Some. rewrite Hb. discriminate. }
  assert (Hstr' : forall j wj lj, (j < b)%nat ->
            nth_error (hist ++ [(w, l)]) j = Some (wj, lj) -> lb < lj).
  { intros j wj lj Hj Hnth. apply nth_error_snoc in Hnth.
    destruct Hnth as [[_ Hnth] | [Hnth _]]; [now apply (Hstr j wj lj) | lia]. }
  split.
  - right. exists b, wb, lb. cbn [Fit.wait Fit.best Fit.best_weights].
    repeat split; auto.
    + intros j wj lj Hnth. apply nth_error_snoc in Hnth.
      destruct Hnth as [[_ Hnth] | [_ [= _ ->]]];
        [now apply (Hmin j wj lj) | exact Hle].
    + rewrite length_app. simpl. lia.
  - intros k Hk Hst. rewrite length_app in Hk. simpl in Hk.
    destruct (Nat.le_gt_cases (k + n) (List.length hist)) as [Hin | Hout].
    + apply (Hfresh k Hin). now apply (stale_snoc hist (w, l)).
    + apply (best_epoch_improves _ _ _ _ Hb' Hstr').
      apply Hst. lia.
Qed.

(** What a run of the loop guarantees from any state that satisfies the
    invariant, for a policy that restores the best parameters. *)
Lemma fit_loop_spec (cb : Train.EarlyStopping) (restore_on_completion : bool) :
  (0 < Train.es_patience cb)%nat ->
  Train.es_restore_best_weights cb = true ->
  forall (remaining epoch : nat) (s : Weights * Optimizer)
         (st : Fit.Stopper Weights) (hist : list (Weights * Q)),
  loop_invariant_ (Train.es_patience cb) hist st ->
  forall r,
  r = Fit.fit_loop Weights Optimizer run_epoch cb restore_on_completion
        remaining epoch s st hist ->
  (List.length (Fit.history r) <= List.length hist + remaining)%nat /\
  (forall k,
     (k + Train.es_patience cb <= List.length (Fit.history r))%nat ->
     stale_ (Fit.history r) k (Train.es_patience cb) ->
     Fit.stopped_early r = true /\
     List.length (Fit.history r) = (k + Train.es_patience cb)%nat) /\
  (Fit.stopped_early r = true ->
   exists b wb lb,
     nth_error (Fit.history r) b = Some (wb, lb) /\
     Fit.final_weights r = wb /\
     (forall j wj lj, nth_error (Fit.history r) j = Some (wj, lj) -> lb <= lj) /\
     List.length (Fit.history r) = (b + 1 + Train.es_patience cb)%nat).
Proof.
  intros Hn Hrestore.
  induction remaining as [| remaining IH]; intros epoch s st hist Hinv r ->.
  - cbn [Fit.fit_loop Fit.history Fit.stopped_early].
    split; [lia |]. split; [| discriminate].
    intros k Hk Hst. destruct Hinv as [_ Hfresh]. now destruct (Hfresh k Hk).
  - cbn [Fit.fit_loop].
    destruct (run_epoch epoch s) as [s' l].
    unfold Fit.on_epoch_end.
    destruct (Fit.is_improvement l (Fit.best st)) eqn:Himp.
    + (* the loss improved: keep going *)
      rewrite Hrestore.
      pose proof (invariant_improved _ hist st (fst s') l Hn Hinv Himp) as Hinv'.
      destruct (IH (S epoch) s' _ _ Hinv' _ eq_refl) as (Hlen & Hwin & Hstop).
      split; [| split]; auto.
      rewrite length_app in Hlen. simpl in Hlen. lia.
    + (* no improvement *)
      destruct (is_improvement_false _ _ Himp) as (lb & Eb & Hle).
      destruct (Train.es_patience cb <=? S (Fit.wait st))%nat eqn:Hpat.
      * (* patience exhausted: halt and restore *)
        apply Nat.leb_le in Hpat.
        cbn [Fit.history Fit.stopped_early Fit.final_weights].
        destruct Hinv as [Hbest Hfresh].
        destruct Hbest as [[_ ->] |
          (b & wb & lb' & Hb & Eb' & Ew & Hmin & Hstr & Hlen & Hwait)];
          [discriminate Eb |].
        rewrite Eb in Eb'. injection Eb' as <-.
        rewrite length_app. simpl.
        split; [lia |]. split.
        -- intros k Hk Hst. split; [reflexivity |].
           destruct (Nat.le_gt_cases (k + Train.es_patience cb)
                       (List.length hist)) as [Hin | Hout]; [| lia].
           destruct (Hfresh k Hin).
           now apply (stale_snoc hist (fst s', l)).
        -- intros _. exists b, wb, lb. repeat split.
           ++ apply nth_error_snoc. left. split; [| exact Hb].
              apply nth_error_Some. rewrite Hb. discriminate.
           ++ unfold Fit.restore. cbn [Fit.best_weights]. now rewrite Ew.
           ++ intros j wj lj Hnth. apply nth_error_snoc in Hnth.
              destruct Hnth as [[_ Hnth] | [_ [= _ ->]]];
                [now apply (Hmin j wj lj) | exact Hle].
           ++ lia.
      * (* patience left: keep going *)
        apply Nat.leb_gt in Hpat.
        pose proof (invariant_waited _ hist st (fst s') l lb Hinv Eb Hle Hpat)
          as Hinv'.
        destruct (IH (S epoch) s' _ _ Hinv' _ eq_refl) as (Hlen & Hwin & Hstop).
        split; [| split]; auto.
        rewrite length_app in Hlen. simpl in Hlen. lia.
Qed.

Lemma invariant_at_start (n : nat) :
  (0 < n)%nat -> loop_invariant_ n [] (Fit.on_train_begin Weights).
Proof.
  intros Hn. split; [now left |].
  intros k Hk. simpl in Hk. lia.
Qed.

(** C7. The training run of the script executes at most [EPOCHS] = 10
    epochs.  Three consecutive epochs without improvement of the
    validation loss can only be the last three of a run that was halted
    early; and a run halted early leaves the model with the parameters of
    the best epoch, the one of lowest validation loss, which is the fourth
    epoch from the end. *)
Theorem early_stopping_halts_and_restores (restore_on_completion : bool)
    (s : Weights * Optimizer) :
  (List.length (Fit.history (Fit.training_run run_epoch restore_on_completion s))
   <= 10)%nat /\
  (forall k,
     (k + 3 <= List.length
         (Fit.history (Fit.training_run run_epoch restore_on_completion s)))%nat ->
     stale_ (Fit.history (Fit.training_run run_epoch restore_on_completion s)) k 3 ->
     Fit.stopped_early (Fit.training_run run_epoch restore_on_completion s) = true /\
     List.length
       (Fit.history (Fit.training_run run_epoch restore_on_completion s))
     = (k + 3)%nat) /\
  (Fit.stopped_early (Fit.training_run run_epoch restore_on_completion s) = true ->
   exists b wb lb,
     nth_error
       (Fit.history (Fit.training_run run_epoch restore_on_completion s)) b
     = Some (wb, lb) /\
     Fit.final_weights (Fit.training_run run_epoch restore_on_completion s) = wb /\
     (forall j wj lj,
        nth_error
          (Fit.history (Fit.training_run run_epoch restore_on_completion s)) j
        = Some (wj, lj) -> lb <= lj) /\
     List.length
       (Fit.history (Fit.training_run run_epoch restore_on_completion s))
     = (b + 4)%nat).
Proof.
  assert (Hpat : (0 < Train.es_patience Train.early_stopping)%nat)
    by (simpl; lia).
  destruct (fit_loop_spec Train.early_stopping restore_on_completion
              Hpat eq_refl Train.EPOCHS 0 s (Fit.on_train_begin Weights) []
              (invariant_at_start _ Hpat)
              (Fit.training_run run_epoch restore_on_completion s) eq_refl)
    as (Hlen & Hwin & Hstop).
  change (Train.es_patience Train.early_stopping) with 3%nat in Hwin, Hstop.
  split; [exact Hlen |]. split; [exact Hwin |].
  intros Hs. destruct (Hstop Hs) as (b & wb & lb & H1 & H2 & H3 & H4).
  exists b, wb, lb. repeat split; auto. rewrite H4. lia.
Qed.

End EarlyStopping.

(** A run whose loss is lowest in the second epoch and never improves
    again is halted after the fifth, with the parameters of the second. *)
Example halted_run :
  Fit.training_run (Demo.run_epoch [0.9; 0.5; 0.6; 0.7; 0.8; 0.1]) false
    (0%nat, tt) =
  {| Fit.final_weights := 2%nat;
     Fit.final_optimizer := tt;
     Fit.history := [(1%nat, 0.9); (2%nat, 0.5); (3%nat, 0.6);
                     (4%nat, 0.7); (5%nat, 0.8)];
     Fit.stopped_early := true |}.
Proof. reflexivity. Qed.

(** A run whose loss falls in every epoch runs all ten. *)
Example full_run :
  List.length (Fit.history
    (Fit.training_run
       (Demo.run_epoch [0.9; 0.8; 0.7; 0.6; 0.5; 0.4; 0.3; 0.2; 0.1; 0.05; 0.01])
       false (0%nat, tt))) = 10%nat /\
  Fit.stopped_early
    (Fit.training_run
       (Demo.run_epoch [0.9; 0.8; 0.7; 0.6; 0.5; 0.4; 0.3; 0.2; 0.1; 0.05; 0.01])
       false (0%nat, tt)) = false.
Proof. split; reflexivity. Qed.

(** * Further properties of the code *)


(** ** More on the resolution of the path arguments *)

Module StrMore.
Import Str.

Lemma lower_app (a b : string) :
  lower (a ++ b) = (lower a ++ lower b)%string.
Proof.
  induction a as [| c a IH]; simpl; [reflexivity | now rewrite IH].
Qed.

(** A lowered string splits where its original does. *)
Lemma lower_split (f a b : string) :
  lower f = (a ++ b)%string ->
  exists x y, f = (x ++ y)%string /\ lower x = a /\ lower y = b.
Proof.
  revert f. induction a as [| c a IH]; intros f E.
  - exists "", f. now repeat split.
  - destruct f as [| d f]; simpl in E; [discriminate |].
    injection E as Ec Ef.
    destruct (IH f Ef) as (x & y & -> & Hx & Hy).
    exists (String d x), y. simpl. now rewrite Ec, Hx.
Qed.

Lemma has_sep_app (a b : string) :
  has_sep (a ++ b) = has_sep a || has_sep b.
Proof.
  induction a as [| c a IH]; simpl; [reflexivity |].
  now rewrite IH, orb_assoc.
Qed.

End StrMore.

Module PathMore.
Import Str OsPath.

Lemma basename_no_sep (f : string) : has_sep f = false -> basename f = f.
Proof.
  destruct f as [| c f]; [reflexivity |].
  cbn [has_sep basename]. now intros ->.
Qed.

Lemma basename_after_sep (a f : string) :
  has_sep f = false -> basename (a ++ String "/" f) = f.
Proof.
  intros Hf. induction a as [| c a IH].
  - cbn [append basename]. rewrite Ascii.eqb_refl. cbn [orb].
    now apply basename_no_sep.
  - cbn [append basename].
    rewrite StrMore.has_sep_app. cbn [has_sep]. rewrite Ascii.eqb_refl.
    cbn [orb]. rewrite orb_true_r, orb_true_r. exact IH.
Qed.

Lemma append_assoc (a b c : string) :
  ((a ++ b) ++ c)%string = (a ++ (b ++ c))%string.
Proof.
  induction a as [| x a IH]; simpl; [reflexivity | now rewrite IH].
Qed.

Lemma startswith_sep (f : string) :
  has_sep f = false -> startswith f "/" = false.
Proof.
  destruct f as [| c f]; [reflexivity |].
  cbn [has_sep]. intros H. apply orb_false_iff in H. destruct H as [H _].
  unfold startswith. cbn [prefix].
  destruct (ascii_dec "/" c) as [<- | _]; [| reflexivity].
  now rewrite Ascii.eqb_refl in H.
Qed.

End PathMore.

(** Joining a directory and an entry name and taking the base name gives
    the entry name back, for every name without a separator. *)
Lemma basename_join (dir f : string) :
  Str.has_sep f = false -> OsPath.basename (OsPath.join dir f) = f.
Proof.
  intros Hf. unfold OsPath.join. rewrite (PathMore.startswith_sep f Hf).
  destruct (String.eqb dir "") eqn:Hd.
  - apply String.eqb_eq in Hd. subst dir. cbn [orb append].
    now apply PathMore.basename_no_sep.
  - cbn [orb]. destruct (Str.endswith dir "/") eqn:He.
    + apply StrFacts.endswith_iff in He. destruct He as [pre ->].
      rewrite PathMore.append_assoc. cbn [append].
      now apply PathMore.basename_after_sep.
    + cbn [append]. now apply PathMore.basename_after_sep.
Qed.

(** X2. The extension test looks only at the end of the name and not at
    the case of its letters: a name is taken for an image exactly when it
    is some stem followed by an ending that, lowered, is .jpg, .jpeg or
    .png. *)
Theorem image_name_iff_extension (f : string) :
  is_image_name f = true <->
  exists stem ext,
    f = (stem ++ ext)%string /\ In (Str.lower ext) [".jpg"; ".jpeg"; ".png"].
Proof.
  unfold is_image_name. rewrite existsb_exists. split.
  - intros (e & He & Hend).
    apply StrFacts.endswith_iff in Hend. destruct Hend as [pre Hpre].
    destruct (StrMore.lower_split f pre e Hpre) as (x & y & -> & _ & Hy).
    exists x, y. split; [reflexivity |]. now rewrite Hy.
  - intros (stem & ext & -> & Hin).
    exists (Str.lower ext). split; [exact Hin |].
    apply StrFacts.endswith_iff. exists (Str.lower stem).
    apply StrMore.lower_app.
Qed.

Section PathExtras.
Variable fs : FileSystem.

(** X1. The name under which a candidate from a directory is announced
    and recorded, its base name, is the name of the entry in the listing:
    the base names of the candidates of a directory are its .jpg, .jpeg
    and .png entries (entry names hold no separator). *)
Theorem directory_candidates_basenames (path : string) :
  isdir fs path = true ->
  Forall (fun f => Str.has_sep f = false) (listdir fs path) ->
  map OsPath.basename (collect_image_paths fs [path]) =
    filter (fun f => Str.endswith (Str.lower f) ".jpg") (listdir fs path) ++
    filter (fun f => Str.endswith (Str.lower f) ".jpeg") (listdir fs path) ++
    filter (fun f => Str.endswith (Str.lower f) ".png") (listdir fs path).
Proof.
  intros D Hnames.
  assert (Hchild : forall ext,
    map OsPath.basename (children_with fs path ext) =
    filter (fun f => Str.endswith (Str.lower f) ext) (listdir fs path)).
  { intros ext. unfold children_with. rewrite map_map.
    rewrite <- (map_id (filter _ (listdir fs path))) at 2.
    apply map_ext_in. intros f Hf. apply filter_In in Hf.
    apply basename_join.
    now apply (proj1 (Forall_forall _ _) Hnames f). }
  rewrite collect_image_paths_flat_map. cbn [flat_map]. rewrite app_nil_r.
  rewrite (collect_step_dir fs path D), !map_app.
  now rewrite !Hchild.
Qed.

(** X3. The candidate list is built argument by argument, in the order of
    the command line: resolving two argument lists one after the other is
    resolving their concatenation. *)
Theorem collect_image_paths_app (xs ys : list string) :
  collect_image_paths fs (xs ++ ys) =
  collect_image_paths fs xs ++ collect_image_paths fs ys.
Proof.
  rewrite !collect_image_paths_flat_map. apply flat_map_app.
Qed.

(** X4. An argument that names nothing is dropped without a trace: the
    candidates are those of the command line without it. *)
Theorem missing_argument_dropped (xs ys : list string) (path : string) :
  exists_ fs path = false ->
  collect_image_paths fs (xs ++ path :: ys) = collect_image_paths fs (xs ++ ys).
Proof.
  intros H. rewrite !collect_image_paths_flat_map, !flat_map_app.
  cbn [flat_map]. now rewrite (collect_step_missing fs path H).
Qed.

Lemma children_with_In (path ext p : string) :
  In p (children_with fs path ext) <->
  exists f, In f (listdir fs path) /\
            Str.endswith (Str.lower f) ext = true /\ p = OsPath.join path f.
Proof.
  unfold children_with. rewrite in_map_iff. split.
  - intros (f & <- & Hf). apply filter_In in Hf. destruct Hf as [Hin He].
    now exists f.
  - intros (f & Hin & He & ->). exists f. split; [reflexivity |].
    apply filter_In. now split.
Qed.

(** X5. Where every candidate comes from: a candidate is an argument that
    is a regular file, or the join of an argument that is a directory with
    one of its entries whose name is an image name.  Entries are neither
    opened nor tested for being files, and no directory below an argument
    is listed. *)
Theorem candidate_origin (images : list string) (p : string) :
  In p (collect_image_paths fs images) <->
  exists arg, In arg images /\
    ((isfile fs arg = true /\ p = arg) \/
     (isdir fs arg = true /\
      exists f, In f (listdir fs arg) /\ is_image_name f = true /\
                p = OsPath.join arg f)).
Proof.
  rewrite collect_image_paths_flat_map, in_flat_map.
  split; intros (arg & Harg & H); exists arg; (split; [exact Harg |]).
  - destruct (isdir fs arg) eqn:D.
    + right. split; [reflexivity |].
      rewrite (collect_step_dir fs arg D) in H.
      rewrite !in_app_iff, !children_with_In in H.
      destruct H as [(f & Hf & He & ->) | [(f & Hf & He & ->) | (f & Hf & He & ->)]];
        exists f; (split; [exact Hf |]); (split; [| reflexivity]);
        unfold is_image_name, extensions; cbn [existsb]; rewrite He;
        rewrite ?orb_true_r; reflexivity.
    + left. unfold collect_step in H. rewrite D in H.
      destruct (isfile fs arg) eqn:F; [| contradiction].
      destruct H as [<- | []]. now split.
  - destruct H as [[F ->] | (D & f & Hf & Hname & ->)].
    + rewrite (collect_step_file fs arg F). now left.
    + rewrite (collect_step_dir fs arg D).
      rewrite !in_app_iff, !children_with_In.
      unfold is_image_name, extensions in Hname. cbn [existsb] in Hname.
      rewrite orb_false_r in Hname.
      apply orb_true_iff in Hname. destruct Hname as [He | Hname].
      * left. now exists f.
      * apply orb_true_iff in Hname. destruct Hname as [He | He].
        -- right; left. now exists f.
        -- right; right. now exists f.
Qed.

(** X6. Nothing is removed from the candidates: a regular file occurs in
    the list at least as often as it is named on the command line. *)
Theorem named_file_kept_each_time (images : list string) (path : string) :
  isfile fs path = true ->
  (count_occ string_dec images path <=
   count_occ string_dec (collect_image_paths fs images) path)%nat.
Proof.
  intros F. rewrite collect_image_paths_flat_map.
  induction images as [| a images IH]; [apply Nat.le_refl |].
  cbn [flat_map count_occ]. rewrite count_occ_app.
  destruct (string_dec a path) as [-> | Hne].
  - rewrite (collect_step_file fs path F). cbn [count_occ].
    destruct (string_dec path path) as [_ | N]; [lia | now destruct N].
  - lia.
Qed.

End PathExtras.

Lemma directory_candidates_basenames_witness :
  map OsPath.basename (collect_image_paths Demo.fs ["scans"]) =
  ["b.jpg"; "a.png"].
Proof.
  apply (directory_candidates_basenames Demo.fs "scans" eq_refl).
  repeat constructor.
Defined.

Lemma missing_argument_dropped_witness :
  collect_image_paths Demo.fs ["notes.txt"; "nowhere.jpg"; "scans"] =
  collect_image_paths Demo.fs ["notes.txt"; "scans"].
Proof.
  exact (missing_argument_dropped Demo.fs ["notes.txt"] ["scans"]
           "nowhere.jpg" eq_refl).
Defined.

Lemma named_file_kept_each_time_witness :
  (2 <= count_occ string_dec
          (collect_image_paths Demo.fs ["notes.txt"; "scans"; "notes.txt"])
          "notes.txt")%nat.
Proof.
  exact (named_file_kept_each_time Demo.fs
           ["notes.txt"; "scans"; "notes.txt"] "notes.txt" eq_refl).
Defined.

(** ** More on single predictions *)

Section PredictExtras.
Variable fs : FileSystem.
Variable decode_rgb : list nat -> Exception + Image.
Variable resize : nat * nat -> Image -> Image.
Variable fmt_percent : F32.float32 -> string.
Variable fmt_fixed4 : F32.float32 -> string.
Variable model : Model.

Local Abbreviation preprocess_image_ := (preprocess_image fs decode_rgb resize).
Local Abbreviation predict_image_ :=
  (predict_image fs decode_rgb resize fmt_percent fmt_fixed4 model).

(** The ways a call of [predict_image] can go. *)
Lemma predict_image_cases (image_path : string) (show : bool) :
  (exists e,
     outcome (preprocess_image_ image_path) = inl e /\
     predict_image_ image_path show = ([OpenImage image_path], inl e)) \/
  (exists img_array img e,
     outcome (preprocess_image_ image_path) = inr (img_array, img) /\
     predict_image_ image_path show =
       ([OpenImage image_path; Predict img_array], inl e)) \/
  (exists img_array img raw,
     outcome (preprocess_image_ image_path) = inr (img_array, img) /\
     predict_image_ image_path show =
       ([OpenImage image_path; Predict img_array;
         Print (Str.nl ++ "Prediction Results:");
         Print ("  Diagnosis: " ++ diagnosis (interpret raw));
         Print ("  Confidence: " ++ fmt_percent (confidence (interpret raw)));
         Print ("  Raw Score: " ++ fmt_fixed4 raw)] ++
        (if show then
           [Show ("Diagnosis: " ++ diagnosis (interpret raw) ++ Str.nl ++
                  "Confidence: " ++ fmt_percent (confidence (interpret raw)))
              (color (interpret raw))]
         else []),
        inr (diagnosis (interpret raw), confidence (interpret raw), raw))).
Proof.
  unfold predict_image, preprocess_image, open_rgb, run_predict, call.
  destruct (match fs image_path with
            | Some (File content) => decode_rgb content
            | Some (Dir _) => inl (OtherError ("Is a directory: " ++ image_path))
            | None => inl (FileNotFoundError
                             ("No such file or directory: " ++ image_path))
            end) as [e | img]; cbn.
  - left. now exists e.
  - right.
    destruct (match model [normalize (resize (IMG_SIZE, IMG_SIZE) img)] with
              | inl e => inl e
              | inr rows => first_output rows
              end) as [e | raw]; cbn.
    + left. do 2 eexists. exists e. split; reflexivity.
    + right. do 2 eexists. exists raw. split; [reflexivity |].
      now destruct show.
Qed.

(** X7. A call of [predict_image] that raises has printed nothing and
    shown nothing; and when it is the preprocessing that failed, the model
    was not called at all: the only thing done is the attempt to open the
    image, and the error is that of the preprocessing. *)
Theorem failed_prediction_is_silent (image_path : string) (show : bool)
    (e : Exception) :
  outcome (predict_image_ image_path show) = inl e ->
  (forall ev, In ev (trace (predict_image_ image_path show)) ->
     is_print ev = false /\ is_show ev = false) /\
  (forall e', outcome (preprocess_image_ image_path) = inl e' ->
     predict_image_ image_path show = ([OpenImage image_path], inl e)).
Proof.
  intros Hfail.
  destruct (predict_image_cases image_path show)
    as [(e1 & Hpre & E) | [(arr & img & e1 & Hpre & E) |
                           (arr & img & raw & Hpre & E)]];
    rewrite E in *; unfold outcome, trace in *; cbn [fst snd] in *.
  - injection Hfail as ->. split.
    + intros ev [<- | []]. now split.
    + reflexivity.
  - injection Hfail as ->. split.
    + intros ev [<- | [<- | []]]; now split.
    + intros e' He'. rewrite Hpre in He'. discriminate He'.
  - discriminate Hfail.
Qed.

(** X8. [predict_image] displays the image exactly when it was asked to
    and the prediction succeeded; the title is then red exactly when the
    comparison [prediction > 0.5] holds and green otherwise: for a finite
    score, red when it is above 0.5 and green when it is at most 0.5. *)
Theorem image_shown_iff_asked_and_predicted (image_path : string)
    (show : bool) :
  ((exists title c,
      In (Show title c) (trace (predict_image_ image_path show))) <->
   show = true /\ succeeded (predict_image_ image_path show) = true) /\
  (forall title c d conf raw,
     In (Show title c) (trace (predict_image_ image_path show)) ->
     outcome (predict_image_ image_path show) = inr (d, conf, raw) ->
     (c = "red" <-> F32.gt raw (F32.Fin 0.5) = true) /\
     (c = "green" <-> F32.gt raw (F32.Fin 0.5) = false) /\
     (forall q, raw = F32.Fin q ->
        (c = "red" <-> 0.5 < q) /\ (c = "green" <-> q <= 0.5))).
Proof.
  destruct (predict_image_cases image_path show)
    as [(e1 & Hpre & E) | [(arr & img & e1 & Hpre & E) |
                           (arr & img & raw & Hpre & E)]];
    rewrite E; unfold outcome, trace, succeeded; cbn [fst snd].
  - split.
    + split; [intros (t & c & [H | []]); discriminate H | intros [_ H]; discriminate H].
    + intros t c d conf raw _ H. discriminate H.
  - split.
    + split; [intros (t & c & [H | [H | []]]); discriminate H
             | intros [_ H]; discriminate H].
    + intros t c d conf raw _ H. discriminate H.
  - split.
    + split.
      * intros (t & c & Hin). split; [| reflexivity].
        destruct show; [reflexivity |]. cbn in Hin.
        repeat (destruct Hin as [H | Hin]; [discriminate H |]). contradiction.
      * intros [-> _]. do 2 eexists. apply in_or_app. right. now left.
    + intros t c d conf raw' Hin [= <- <- <-].
      assert (Hc : c = color (interpret raw)).
      { destruct show; cbn in Hin;
          repeat (destruct Hin as [H | Hin]; [try discriminate H |]);
          try contradiction.
        now injection H as _ <-. }
      assert (Hgen : (c = "red" <-> F32.gt raw (F32.Fin 0.5) = true) /\
                     (c = "green" <-> F32.gt raw (F32.Fin 0.5) = false)).
      { rewrite Hc. unfold interpret.
        destruct (F32.gt raw (F32.Fin 0.5)); cbn [color];
          split; split; auto; intros H; discriminate H. }
      destruct Hgen as [Hred Hgreen]. split; [exact Hred |].
      split; [exact Hgreen |].
      intros q ->. rewrite Hred, Hgreen.
      split; [apply F32Facts.gt_finite | apply F32Facts.gt_finite_false].
Qed.

(** ** More on batch prediction *)

Local Abbreviation batch_entry_ :=
  (batch_entry fs decode_rgb resize fmt_percent fmt_fixed4 model).
Local Abbreviation batch_step_ :=
  (batch_step fs decode_rgb resize fmt_percent fmt_fixed4 model).
Local Abbreviation batch_loop_ :=
  (batch_loop fs decode_rgb resize fmt_percent fmt_fixed4 model).
Local Abbreviation predict_batch_ :=
  (predict_batch fs decode_rgb resize fmt_percent fmt_fixed4 model).

(** What the batch returns. *)
Lemma predict_batch_outcome (image_paths : list string) :
  outcome (predict_batch_ image_paths) =
  inr (flat_map batch_entry_ image_paths).
Proof.
  destruct (batch_loop_spec fs decode_rgb resize fmt_percent fmt_fixed4 model
              (List.length image_paths) image_paths 1 [])
    as (t & E & _).
  unfold predict_batch. rewrite E. reflexivity.
Qed.

(** Apart from what it prints, a turn of the loop does what
    [predict_image] does. *)
Lemma batch_step_events (keep : Event -> bool) (total i : nat)
    (img_path : string) (results : list Result) :
  (forall line, keep (Print line) = false) ->
  filter keep (trace (batch_step_ total i img_path results)) =
  filter keep (trace (predict_image_ img_path false)).
Proof.
  intros Hkeep. unfold batch_step.
  destruct (predict_image_ img_path false) as [t [e | [[d c] raw]]];
    unfold trace; cbn; rewrite Hkeep, filter_app; cbn; rewrite Hkeep;
    now rewrite app_nil_r.
Qed.

Lemma batch_loop_events (keep : Event -> bool) (total : nat)
    (image_paths : list string) :
  (forall line, keep (Print line) = false) ->
  forall (i : nat) (results : list Result),
  filter keep (trace (batch_loop_ total i image_paths results)) =
  flat_map (fun p => filter keep (trace (predict_image_ p false))) image_paths.
Proof.
  intros Hkeep.
  induction image_paths as [| p rest IH]; intros i results; [reflexivity |].
  cbn [batch_loop flat_map].
  destruct (batch_step_spec fs decode_rgb resize fmt_percent fmt_fixed4 model
              total i p results) as (t & E & _).
  pose proof (batch_step_events keep total i p results Hkeep) as Hstep.
  rewrite E in *. cbn [bind].
  specialize (IH (S i) (results ++ batch_entry_ p)).
  destruct (batch_loop_ total (S i) rest (results ++ batch_entry_ p))
    as [t2 r2].
  unfold trace in *. cbn [fst] in *.
  now rewrite filter_app, Hstep, IH.
Qed.

Lemma predict_batch_events (keep : Event -> bool)
    (image_paths : list string) :
  (forall line, keep (Print line) = false) ->
  filter keep (trace (predict_batch_ image_paths)) =
  flat_map (fun p => filter keep (trace (predict_image_ p false))) image_paths.
Proof.
  intros Hkeep.
  pose proof (batch_loop_events keep (List.length image_paths) image_paths
                Hkeep 1 []) as Hloop.
  destruct (batch_loop_spec fs decode_rgb resize fmt_percent fmt_fixed4 model
              (List.length image_paths) image_paths 1 [])
    as (t & E & _).
  unfold predict_batch. rewrite E in *. unfold trace in *. cbn in *.
  rewrite Hkeep, filter_app. cbn. rewrite !Hkeep, app_nil_r. exact Hloop.
Qed.

(** X9. Printing apart, a batch does to the outside exactly what the
    calls [predict_image(model, p, show=False)] do, one image after the
    other in the order of the list. *)
Theorem batch_is_sequence_of_predictions (image_paths : list string) :
  filter (fun ev => negb (is_print ev)) (trace (predict_batch_ image_paths)) =
  flat_map (fun p => filter (fun ev => negb (is_print ev))
                       (trace (predict_image_ p false)))
    image_paths.
Proof. apply predict_batch_events. reflexivity. Qed.

Lemma predict_image_opens_once (p : string) (show : bool) :
  filter is_open (trace (predict_image_ p show)) = [OpenImage p].
Proof.
  destruct (predict_image_cases p show)
    as [(e1 & _ & E) | [(arr & img & e1 & _ & E) | (arr & img & raw & _ & E)]];
    rewrite E; unfold trace; cbn; [reflexivity | reflexivity |].
  now destruct show.
Qed.

Lemma predict_image_predicts (p : string) :
  List.length (filter is_predict (trace (predict_image_ p false))) =
  if succeeded (preprocess_image_ p) then 1%nat else 0%nat.
Proof.
  destruct (predict_image_cases p false)
    as [(e1 & H & E) | [(arr & img & e1 & H & E) | (arr & img & raw & H & E)]];
    rewrite E; unfold trace, succeeded; rewrite H; reflexivity.
Qed.

Lemma predict_image_quiet (p : string) :
  filter is_show (trace (predict_image_ p false)) = [].
Proof.
  destruct (predict_image_cases p false)
    as [(e1 & _ & E) | [(arr & img & e1 & _ & E) | (arr & img & raw & _ & E)]];
    rewrite E; reflexivity.
Qed.

(** X10. A batch opens every image of the list exactly once, in the order
    of the list, whatever fails on the way; it calls the model once for
    each image that could be preprocessed and for no other; and it never
    displays an image. *)
Theorem batch_opens_each_image_once (image_paths : list string) :
  filter is_open (trace (predict_batch_ image_paths)) =
    map OpenImage image_paths /\
  List.length (filter is_predict (trace (predict_batch_ image_paths))) =
    List.length (filter (fun p => succeeded (preprocess_image_ p)) image_paths) /\
  filter is_show (trace (predict_batch_ image_paths)) = [].
Proof.
  rewrite !predict_batch_events by reflexivity.
  split; [| split].
  - induction image_paths as [| p rest IH]; [reflexivity |].
    cbn [flat_map map]. now rewrite predict_image_opens_once, IH.
  - induction image_paths as [| p rest IH]; [reflexivity |].
    cbn [flat_map filter]. rewrite length_app, predict_image_predicts, IH.
    now destruct (succeeded (preprocess_image_ p)).
  - induction image_paths as [| p rest IH]; [reflexivity |].
    cbn [flat_map]. now rewrite predict_image_quiet, IH.
Qed.

(** X11. The results of a batch are those of the batch without the images
    that fail: an image on which [predict_image] raises changes nothing to
    what is returned for the others. *)
Theorem failing_images_do_not_change_results (image_paths : list string) :
  outcome (predict_batch_
             (filter (fun p => succeeded (predict_image_ p false)) image_paths)) =
  outcome (predict_batch_ image_paths).
Proof.
  rewrite !predict_batch_outcome. f_equal.
  induction image_paths as [| p rest IH]; [reflexivity |].
  cbn [filter flat_map]. unfold succeeded at 1.
  destruct (outcome (predict_image_ p false)) as [e | r] eqn:E.
  - rewrite IH. unfold batch_entry at 2. now rewrite E.
  - cbn [flat_map]. now rewrite IH.
Qed.

(** X12. Every entry of the results of a batch is consistent: its
    diagnosis is PNEUMONIA exactly when the comparison [raw > 0.5] holds
    and NORMAL otherwise; its confidence is the raw score in the first
    case and the single-precision [1 - raw] in the second; for a raw score
    between 0 and 1 the confidence is a finite number between 0.5 and 1; a
    score that is not a number is recorded as NORMAL with a confidence
    that is not a number; and its name is a base name. *)
Theorem batch_results_consistent (image_paths : list string)
    (results : list Result) :
  outcome (predict_batch_ image_paths) = inr results ->
  Forall (fun r =>
      (r_diagnosis r = "PNEUMONIA" <->
       F32.gt (r_raw_score r) (F32.Fin 0.5) = true) /\
      (r_diagnosis r = "NORMAL" <->
       F32.gt (r_raw_score r) (F32.Fin 0.5) = false) /\
      r_confidence r =
        (if F32.gt (r_raw_score r) (F32.Fin 0.5) then r_raw_score r
         else F32.sub (F32.Fin 1) (r_raw_score r)) /\
      (forall q, r_raw_score r = F32.Fin q -> 0 <= q -> q <= 1 ->
         exists c, r_confidence r = F32.Fin c /\ 0.5 <= c /\ c <= 1) /\
      (r_raw_score r = F32.NaN ->
         r_diagnosis r = "NORMAL" /\ r_confidence r = F32.NaN) /\
      Str.has_sep (r_image r) = false)
    results.
Proof.
  rewrite predict_batch_outcome. intros [= <-].
  apply Forall_flat_map. apply Forall_forall. intros p _.
  unfold batch_entry.
  destruct (outcome (predict_image_ p false)) as [e | [[d c] raw]] eqn:E;
    constructor; [| constructor].
  apply (predict_image_result fs decode_rgb resize fmt_percent fmt_fixed4 model)
    in E.
  destruct E as [-> ->]. cbn [r_diagnosis r_raw_score r_confidence r_image].
  assert (Hbase : Str.has_sep (OsPath.basename p) = false).
  { clear. induction p as [| ch p IH]; [reflexivity |].
    cbn [OsPath.basename].
    destruct (Ascii.eqb ch "/" || Str.has_sep p) eqn:H; [exact IH |].
    cbn [Str.has_sep]. exact H. }
  assert (Hgen :
    (diagnosis (interpret raw) = "PNEUMONIA" <->
     F32.gt raw (F32.Fin 0.5) = true) /\
    (diagnosis (interpret raw) = "NORMAL" <->
     F32.gt raw (F32.Fin 0.5) = false) /\
    confidence (interpret raw) =
      (if F32.gt raw (F32.Fin 0.5) then raw
       else F32.sub (F32.Fin 1) raw)).
  { unfold interpret, PNEUMONIA, NORMAL.
    destruct (F32.gt raw (F32.Fin 0.5)); cbn [diagnosis confidence];
      repeat split; auto; intros H; discriminate H. }
  destruct Hgen as (Hp & Hn & Hc).
  split; [exact Hp |]. split; [exact Hn |]. split; [exact Hc |].
  split; [| split; [| exact Hbase]].
  - intros q -> H0 H1.
    destruct (Qlt_le_dec 0.5 q) as [Hhi | Hlo].
    + destruct (interpret_high q Hhi H1) as (Ei & _ & _). rewrite Ei.
      cbn [confidence]. exists q. split; [reflexivity |].
      split; [now apply Qlt_le_weak | exact H1].
    + destruct (interpret_low q H0 Hlo) as (Ei & _ & Ha & Hb). rewrite Ei.
      cbn [confidence]. exists (F32.round_finite (1 - q)). now repeat split.
  - intros ->. split; reflexivity.
Qed.

End PredictExtras.

Lemma batch_results_consistent_witness :
  Forall (fun r => Str.has_sep (r_image r) = false)
    [{| r_image := "a.png"; r_diagnosis := "NORMAL";
        r_confidence := F32.sub (F32.Fin 1) (F32.round (inject_Z 7 / 255.0));
        r_raw_score := F32.round (inject_Z 7 / 255.0) |}].
Proof.
  assert (H : outcome (predict_batch Demo.fs_batch Demo.decode_rgb Demo.resize
                         Demo.fmt Demo.fmt Demo.first_pixel
                         ["ward/a.png"; "ward/bad.png"]) =
              inr [{| r_image := "a.png"; r_diagnosis := "NORMAL";
                      r_confidence :=
                        F32.sub (F32.Fin 1) (F32.round (inject_Z 7 / 255.0));
                      r_raw_score := F32.round (inject_Z 7 / 255.0) |}])
    by (vm_compute; reflexivity).
  pose proof (batch_results_consistent Demo.fs_batch Demo.decode_rgb
                Demo.resize Demo.fmt Demo.fmt Demo.first_pixel _ _ H) as F.
  eapply Forall_impl; [| exact F].
  intros r (_ & _ & _ & _ & _ & Hb). exact Hb.
Defined.

(** ** More on the entry point *)

Section CliExtras.
Variable fs : FileSystem.
Variable decode_rgb : list nat -> Exception + Image.
Variable resize : nat * nat -> Image -> Image.
Variable keras_load_model : string -> Exception + Model.
Variable fmt_percent : F32.float32 -> string.
Variable fmt_fixed4 : F32.float32 -> string.

Local Abbreviation load_model_ := (load_model fs keras_load_model).
Local Abbreviation predict_image_ :=
  (predict_image fs decode_rgb resize fmt_percent fmt_fixed4).
Local Abbreviation predict_batch_ :=
  (predict_batch fs decode_rgb resize fmt_percent fmt_fixed4).
Local Abbreviation main_ :=
  (main fs decode_rgb resize keras_load_model fmt_percent fmt_fixed4).

(** [main] after a successful load, by the number of candidates. *)
Lemma main_loaded (args : Args) (model : Model) :
  outcome (load_model_ (args_model args)) = inr model ->
  main_ args =
    bind (trace (load_model_ (args_model args)), inr model)
      (fun model =>
         match collect_image_paths fs (args_images args) with
         | [] => print "No valid images found!"
         | [image_path] =>
             bind (predict_image_ model image_path (negb (args_no_show args)))
               (fun _ => ret tt)
         | _ => bind (predict_batch_ model
                        (collect_image_paths fs (args_images args)))
                  (fun _ => ret tt)
         end).
Proof.
  intros L. unfold main.
  destruct (load_model_ (args_model args)) as [t r].
  unfold outcome, trace in *. cbn [fst snd] in *. now subst r.
Qed.

(** X13. With a single candidate nothing is caught: when the prediction
    on it raises, [main] ends with that exception. *)
Theorem single_image_failure_is_fatal (args : Args) (model : Model)
    (image_path : string) (e : Exception) :
  outcome (load_model_ (args_model args)) = inr model ->
  collect_image_paths fs (args_images args) = [image_path] ->
  outcome (predict_image_ model image_path (negb (args_no_show args))) = inl e ->
  outcome (main_ args) = inl e.
Proof.
  intros L C P. rewrite (main_loaded args model L), C.
  cbn [bind].
  destruct (predict_image_ model image_path (negb (args_no_show args)))
    as [t r]. unfold outcome in *. cbn [snd] in *. subst r. reflexivity.
Qed.

(** X14. With two candidates or more and a loaded model, [main] returns
    normally whatever happens to the images. *)
Theorem batch_mode_always_returns (args : Args) (model : Model) :
  outcome (load_model_ (args_model args)) = inr model ->
  (2 <= List.length (collect_image_paths fs (args_images args)))%nat ->
  outcome (main_ args) = inr tt.
Proof.
  intros L C. rewrite (main_loaded args model L).
  destruct (collect_image_paths fs (args_images args)) as [| p [| q rest]] eqn:E;
    cbn [List.length] in C; try lia.
  pose proof (predict_batch_outcome fs decode_rgb resize fmt_percent fmt_fixed4
                model (p :: q :: rest)) as B.
  cbn [bind].
  destruct (predict_batch_ model (p :: q :: rest)) as [t r].
  unfold outcome in *. cbn [snd] in *. subst r. reflexivity.
Qed.

Lemma load_model_quiet (model_path : string) :
  filter is_show (trace (load_model_ model_path)) = [].
Proof.
  destruct (load_model_cases fs keras_load_model model_path)
    as [[_ E] | [(e & _ & E) | (m & _ & _ & E)]]; rewrite E; reflexivity.
Qed.

(** X15. No image is displayed by a run given [--no-show], nor by a run
    with two candidates or more, with or without [--no-show]. *)
Theorem nothing_shown_when_quiet_or_batch (args : Args) :
  args_no_show args = true \/
  (2 <= List.length (collect_image_paths fs (args_images args)))%nat ->
  filter is_show (trace (main_ args)) = [].
Proof.
  intros H.
  destruct (outcome (load_model_ (args_model args))) as [e | model] eqn:L.
  - unfold main. rewrite (bind_raised _ _ e L). unfold trace at 1. cbn [fst].
    apply load_model_quiet.
  - rewrite (main_loaded args model L). cbn [bind].
    destruct (collect_image_paths fs (args_images args))
      as [| p [| q rest]] eqn:E.
    + unfold trace. cbn. rewrite filter_app. cbn.
      rewrite app_nil_r. apply load_model_quiet.
    + destruct H as [Hq | Hn]; [| cbn in Hn; lia].
      rewrite Hq. cbn [negb].
      pose proof (predict_image_quiet fs decode_rgb resize fmt_percent
                    fmt_fixed4 model p) as Q.
      destruct (predict_image_ model p false) as [t [e | r]];
        unfold trace in *; cbn in *; rewrite filter_app;
        rewrite ?app_nil_r, Q, app_nil_r; apply load_model_quiet.
    + pose proof (predict_batch_events fs decode_rgb resize fmt_percent
                    fmt_fixed4 model is_show (p :: q :: rest)
                    ltac:(reflexivity)) as Q.
      assert (Q' : filter is_show
                     (trace (predict_batch_ model (p :: q :: rest))) = []).
      { rewrite Q. clear. induction (p :: q :: rest) as [| x l IH];
          [reflexivity |].
        cbn [flat_map]. now rewrite predict_image_quiet, IH. }
      destruct (predict_batch_ model (p :: q :: rest)) as [t [e | r]];
        unfold trace in *; cbn in *; rewrite filter_app;
        rewrite ?app_nil_r, Q', app_nil_r; apply load_model_quiet.
Qed.

(** X16. [load_model] calls the framework's loader only on the path it
    was given and only if a file exists there, and prints "Model loaded
    successfully!" exactly when it returns a model. *)
Theorem load_model_reports (model_path : string) :
  (In (Print "Model loaded successfully!") (trace (load_model_ model_path)) <->
   succeeded (load_model_ model_path) = true) /\
  (forall p, In (LoadModel p) (trace (load_model_ model_path)) ->
     p = model_path /\ exists_ fs model_path = true).
Proof.
  destruct (load_model_cases fs keras_load_model model_path)
    as [[_ E] | [(e & Hex & E) | (m & Hex & _ & E)]];
    rewrite E; unfold trace, succeeded, outcome; cbn [fst snd].
  - split.
    + split; [intros [] | intros H; discriminate H].
    + intros p [].
  - split.
    + split; [intros [H | [H | []]]; discriminate H | intros H; discriminate H].
    + intros p [H | [H | []]]; [discriminate H |].
      injection H as <-. now split.
  - split.
    + split; [reflexivity |]. intros _. right. right. now left.
    + intros p [H | [H | [H | []]]]; try discriminate H.
      injection H as <-. now split.
Qed.

(** X17. A model file that exists but that the framework cannot load is
    fatal as well: [main] ends with the exception of the loader, after the
    line that announces the load, without having looked at any image. *)
Theorem rejected_model_is_fatal (args : Args) (e : Exception) :
  exists_ fs (args_model args) = true ->
  keras_load_model (args_model args) = inl e ->
  main_ args =
    ([Print ("Loading model from " ++ args_model args ++ "...");
      LoadModel (args_model args)], inl e).
Proof.
  intros Hex Hk.
  pose proof (load_model_rejected fs keras_load_model _ e Hex Hk) as L.
  unfold main. now rewrite L.
Qed.

End CliExtras.

Lemma single_image_failure_is_fatal_witness :
  outcome (main ward_fs Demo.decode_rgb Demo.resize Demo.keras_load_model
             Demo.fmt Demo.fmt (default_args ["ward/bad.png"])) =
  inl (OtherError "cannot identify image file").
Proof.
  exact (single_image_failure_is_fatal ward_fs Demo.decode_rgb Demo.resize
           Demo.keras_load_model Demo.fmt Demo.fmt
           (default_args ["ward/bad.png"]) Demo.always_ill "ward/bad.png"
           (OtherError "cannot identify image file")
           eq_refl eq_refl eq_refl).
Defined.

Lemma batch_mode_always_returns_witness :
  outcome (main ward_fs Demo.decode_rgb Demo.resize Demo.keras_load_model
             Demo.fmt Demo.fmt (default_args ["ward"])) = inr tt.
Proof.
  apply (batch_mode_always_returns ward_fs Demo.decode_rgb Demo.resize
           Demo.keras_load_model Demo.fmt Demo.fmt
           (default_args ["ward"]) Demo.always_ill).
  - reflexivity.
  - vm_compute. lia.
Defined.

Lemma nothing_shown_when_quiet_or_batch_witness :
  filter is_show
    (trace (main ward_fs Demo.decode_rgb Demo.resize Demo.keras_load_model
              Demo.fmt Demo.fmt (default_args ["ward"]))) = [].
Proof.
  apply (nothing_shown_when_quiet_or_batch ward_fs Demo.decode_rgb Demo.resize
           Demo.keras_load_model Demo.fmt Demo.fmt (default_args ["ward"])).
  right. vm_compute. lia.
Defined.

Lemma rejected_model_is_fatal_witness :
  main ward_fs Demo.decode_rgb Demo.resize rejecting_loader Demo.fmt Demo.fmt
    (default_args ["ward"]) =
  ([Print "Loading model from best_model.keras...";
    LoadModel "best_model.keras"],
   inl (OtherError "file signature not found")).
Proof.
  exact (rejected_model_is_fatal ward_fs Demo.decode_rgb Demo.resize
           rejecting_loader Demo.fmt Demo.fmt (default_args ["ward"])
           (OtherError "file signature not found") eq_refl eq_refl).
Defined.

(** ** The sample grid *)

Section GridFacts.
Variable Picture : Type.
Variable images : list Picture.
Variable labels : list Q.
Variable predicted_classes : list Z.
Variable fmt_fixed2 : F32.float32 -> string.

Local Abbreviation panel_ :=
  (Grid.panel Picture images labels predicted_classes fmt_fixed2).
Local Abbreviation panels_ :=
  (Grid.panels Picture images labels predicted_classes fmt_fixed2).
Local Abbreviation show_predictions_ :=
  (Grid.show_predictions Picture images labels predicted_classes fmt_fixed2).

Lemma index_found {A : Type} (xs : list A) (i : nat) :
  (i < List.length xs)%nat ->
  exists x, nth_error xs i = Some x /\ Grid.index Picture xs i = ([], inr x).
Proof.
  intros H. unfold Grid.index.
  destruct (nth_error xs i) as [x |] eqn:E.
  - now exists x.
  - apply nth_error_None in E. lia.
Qed.

(** A turn of the loop whose five lookups are in range draws one panel. *)
Lemma panel_drawn (axes : list nat) (predictions : list F32.float32) (i : nat) :
  (i < List.length axes)%nat -> (i < List.length images)%nat ->
  (i < List.length labels)%nat -> (i < List.length predicted_classes)%nat ->
  (i < List.length predictions)%nat ->
  exists ax img title color,
    panel_ axes predictions i =
      ([Grid.Imshow ax img; Grid.SetTitle ax title color; Grid.AxisOff ax],
       inr tt).
Proof.
  intros Ha Hi Hl Hc Hp.
  destruct (index_found axes i Ha) as (ax & _ & Ea).
  destruct (index_found images i Hi) as (img & _ & Ei).
  destruct (index_found labels i Hl) as (label & _ & El).
  destruct (index_found predicted_classes i Hc) as (cls & _ & Ec).
  destruct (index_found predictions i Hp) as (p & _ & Ep).
  exists ax, img. do 2 eexists.
  unfold Grid.panel. rewrite Ea, Ei, El, Ec, Ep. reflexivity.
Qed.

Lemma panels_app (axes : list nat) (predictions : list F32.float32)
    (xs ys : list nat) :
  panels_ axes predictions (xs ++ ys) =
  Grid.pbind Picture (panels_ axes predictions xs)
    (fun _ => panels_ axes predictions ys).
Proof.
  induction xs as [| i xs IH]; cbn [app Grid.panels].
  - unfold Grid.pret, Grid.pbind.
    now destruct (panels_ axes predictions ys).
  - rewrite IH.
    destruct (panel_ axes predictions i) as [t1 [e | []]]; cbn; [reflexivity |].
    destruct (panels_ axes predictions xs) as [t2 [e | []]]; cbn.
    + reflexivity.
    + destruct (panels_ axes predictions ys) as [t3 r]. cbn.
      now rewrite app_assoc.
Qed.

Lemma panels_drawn (axes : list nat) (predictions : list F32.float32)
    (indices : list nat) :
  Forall (fun i =>
      (i < List.length axes)%nat /\ (i < List.length images)%nat /\
      (i < List.length labels)%nat /\
      (i < List.length predicted_classes)%nat /\
      (i < List.length predictions)%nat) indices ->
  snd (panels_ axes predictions indices) = inr tt /\
  List.length (filter Grid.is_title (fst (panels_ axes predictions indices)))
    = List.length indices /\
  filter Grid.is_savefig (fst (panels_ axes predictions indices)) = [].
Proof.
  induction 1 as [| i rest (Ha & Hi & Hl & Hc & Hp) _ IH];
    [now repeat split |].
  destruct (panel_drawn axes predictions i Ha Hi Hl Hc Hp)
    as (ax & img & title & color & E).
  cbn [Grid.panels]. rewrite E. cbn [Grid.pbind].
  destruct (panels_ axes predictions rest) as [t r].
  cbn [fst snd] in *. destruct IH as (-> & Ht & Hs).
  repeat split; cbn; [now rewrite Ht | exact Hs].
Qed.

(** X18. Asked for at most eight samples, [show_predictions] never
    indexes past its 2x4 axes: when the labels and predictions cover the
    images of the batch it returns normally, gives a title to as many
    panels as the smaller of [num_images] and the size of the batch, and
    saves the figure once. *)
Theorem grid_within_axes (predictions : list F32.float32) (num_images : nat) :
  (num_images <= 8)%nat ->
  (List.length images <= List.length labels)%nat ->
  (List.length images <= List.length predicted_classes)%nat ->
  (List.length images <= List.length predictions)%nat ->
  snd (show_predictions_ predictions num_images) = inr tt /\
  List.length (filter Grid.is_title
                 (fst (show_predictions_ predictions num_images)))
    = Nat.min num_images (List.length images) /\
  filter Grid.is_savefig (fst (show_predictions_ predictions num_images))
    = [Grid.SaveFig "predictions_sample.png"].
Proof.
  intros Hn Hl Hc Hp.
  assert (Hall : Forall (fun i =>
      (i < List.length (seq 0 (2 * 4)))%nat /\ (i < List.length images)%nat /\
      (i < List.length labels)%nat /\
      (i < List.length predicted_classes)%nat /\
      (i < List.length predictions)%nat)
      (seq 0 (Nat.min num_images (List.length images)))).
  { apply Forall_forall. intros i Hi. apply in_seq in Hi.
    rewrite length_seq. cbn. lia. }
  destruct (panels_drawn (seq 0 (2 * 4)) predictions _ Hall) as (Hr & Ht & Hs).
  rewrite length_seq in Ht.
  unfold Grid.show_predictions. cbn [Grid.pemit Grid.pbind].
  destruct (panels_ (seq 0 (2 * 4)) predictions
              (seq 0 (Nat.min num_images (List.length images)))) as [t r].
  cbn [fst snd] in *. subst r. cbn.
  rewrite !filter_app. cbn. rewrite length_app, Hs. cbn.
  split; [reflexivity |]. split; [lia | reflexivity].
Qed.

(** X19. Asked for more than eight samples of a batch that holds more
    than eight, [show_predictions] raises [IndexError] at the ninth panel:
    eight panels have their title, and the figure is never saved. *)
Theorem grid_beyond_axes (predictions : list F32.float32) (num_images : nat) :
  (8 < num_images)%nat ->
  (8 < List.length images)%nat ->
  (List.length images <= List.length labels)%nat ->
  (List.length images <= List.length predicted_classes)%nat ->
  (List.length images <= List.length predictions)%nat ->
  snd (show_predictions_ predictions num_images) =
    inl (IndexError "index out of range") /\
  List.length (filter Grid.is_title
                 (fst (show_predictions_ predictions num_images))) = 8%nat /\
  filter Grid.is_savefig (fst (show_predictions_ predictions num_images)) = [].
Proof.
  intros Hn Hi Hl Hc Hp.
  assert (Hsplit : exists k,
            seq 0 (Nat.min num_images (List.length images)) =
            seq 0 8 ++ 8%nat :: seq 9 k).
  { remember (Nat.min num_images (List.length images)) as m eqn:Em.
    exists (m - 9)%nat.
    assert (Hm : m = (8 + S (m - 9))%nat) by lia.
    rewrite Hm at 1. rewrite seq_app. reflexivity. }
  destruct Hsplit as [k Hsplit].
  assert (Hall : Forall (fun i =>
      (i < List.length (seq 0 (2 * 4)))%nat /\ (i < List.length images)%nat /\
      (i < List.length labels)%nat /\
      (i < List.length predicted_classes)%nat /\
      (i < List.length predictions)%nat) (seq 0 8)).
  { apply Forall_forall. intros i Hin. apply in_seq in Hin.
    rewrite length_seq. cbn. lia. }
  destruct (panels_drawn (seq 0 (2 * 4)) predictions _ Hall) as (Hr & Ht & Hs).
  rewrite length_seq in Ht.
  unfold Grid.show_predictions. cbn [Grid.pemit Grid.pbind].
  rewrite Hsplit, panels_app.
  destruct (panels_ (seq 0 (2 * 4)) predictions (seq 0 8)) as [t r].
  cbn [fst snd] in *. subst r.
  cbn [Grid.pbind Grid.panels].
  assert (E9 : panel_ (seq 0 (2 * 4)) predictions 8 =
               ([], inl (IndexError "index out of range"))) by reflexivity.
  rewrite E9. cbn. rewrite app_nil_r.
  repeat split; [exact Ht | exact Hs].
Qed.

(** Where the title of a panel comes from. *)
Lemma panel_title (axes : list nat) (predictions : list F32.float32) (i ax : nat)
    (title c : string) :
  In (Grid.SetTitle ax title c) (fst (panel_ axes predictions i)) ->
  exists label cls p,
    nth_error axes i = Some ax /\ nth_error labels i = Some label /\
    nth_error predicted_classes i = Some cls /\
    nth_error predictions i = Some p /\
    c = if String.eqb (if Qeq_bool label 1 then "Pneumonia" else "Normal")
                      (if Z.eqb cls 1 then "Pneumonia" else "Normal")
        then "green" else "red".
Proof.
  unfold Grid.panel, Grid.index.
  destruct (nth_error axes i) as [ax' |]; cbn; [| contradiction].
  destruct (nth_error images i) as [img |]; cbn; [| contradiction].
  destruct (nth_error labels i) as [label |]; cbn;
    [| intros [H | []]; discriminate H].
  destruct (nth_error predicted_classes i) as [cls |]; cbn;
    [| intros [H | []]; discriminate H].
  destruct (nth_error predictions i) as [p |]; cbn;
    [| intros [H | []]; discriminate H].
  intros [H | [H | [H | []]]]; try discriminate H.
  injection H as <- _ <-. now exists label, cls, p.
Qed.

Lemma panels_title (axes : list nat) (predictions : list F32.float32)
    (indices : list nat) (ev : Grid.PlotEvent Picture) :
  In ev (fst (panels_ axes predictions indices)) ->
  exists i, In i indices /\ In ev (fst (panel_ axes predictions i)).
Proof.
  induction indices as [| i rest IH]; cbn [Grid.panels]; [contradiction |].
  destruct (panel_ axes predictions i) as [t1 [e | []]] eqn:E; cbn.
  - intros H. exists i. split; [now left | now rewrite E].
  - destruct (panels_ axes predictions rest) as [t2 r]. cbn in *.
    intros H. apply in_app_or in H. destruct H as [H | H].
    + exists i. split; [now left | now rewrite E].
    + destruct (IH H) as (j & Hj & Hin). exists j. split; [now right | exact Hin].
Qed.

End GridFacts.

(** X20. In the grid drawn by the script, the title of a panel is green
    exactly when the class of the prediction (the comparison
    [prediction > 0.5] holds or not) is the class of the label, and red
    otherwise; the panel on axis [i] is that of sample [i].  For a finite
    prediction the comparison is that of its value with 0.5. *)
Theorem grid_colour_is_agreement {Picture : Type} (images : list Picture)
    (labels : list Q) (fmt_fixed2 : F32.float32 -> string)
    (predictions : list F32.float32) (ax : nat) (title c : string) :
  In (Grid.SetTitle ax title c)
     (fst (Grid.script_call images labels fmt_fixed2 predictions)) ->
  exists label p,
    nth_error labels ax = Some label /\
    nth_error predictions ax = Some p /\
    (c = "green" <-> (label == 1 <-> F32.gt p (F32.Fin 0.5) = true)) /\
    (c = "red" <-> ~ (label == 1 <-> F32.gt p (F32.Fin 0.5) = true)) /\
    (forall q, p = F32.Fin q ->
       (c = "green" <-> (label == 1 <-> 0.5 < q)) /\
       (c = "red" <-> ~ (label == 1 <-> 0.5 < q))).
Proof.
  unfold Grid.script_call, Grid.show_predictions.
  cbn [Grid.pemit Grid.pbind].
  destruct (Grid.panels Picture images labels (map predicted_class predictions)
              fmt_fixed2 (seq 0 (2 * 4)) predictions
              (seq 0 (Nat.min 8 (List.length images)))) as [t r] eqn:E.
  intros Hin.
  assert (Ht : In (Grid.SetTitle ax title c) t).
  { destruct r as [e | []]; cbn in Hin.
    - repeat (destruct Hin as [H | Hin]; [discriminate H |]). exact Hin.
    - repeat (destruct Hin as [H | Hin]; [discriminate H |]).
      apply in_app_or in Hin. destruct Hin as [Hin | Hin]; [exact Hin |].
      repeat (destruct Hin as [H | Hin]; [discriminate H |]). contradiction. }
  replace t with
    (fst (Grid.panels Picture images labels (map predicted_class predictions)
            fmt_fixed2 (seq 0 (2 * 4)) predictions
            (seq 0 (Nat.min 8 (List.length images))))) in Ht
    by now rewrite E.
  apply panels_title in Ht. destruct Ht as (i & _ & Ht).
  apply panel_title in Ht.
  destruct Ht as (label & cls & p & Hax & Hl & Hc & Hp & ->).
  rewrite nth_error_seq in Hax.
  destruct (i <? 2 * 4)%nat; [| discriminate Hax].
  injection Hax as <-. cbn [Nat.add] in *.
  rewrite nth_error_map, Hp in Hc. cbn in Hc. injection Hc as <-.
  exists label, p. split; [exact Hl |]. split; [exact Hp |].
  assert (Hgen :
    ((if String.eqb (if Qeq_bool label 1 then "Pneumonia" else "Normal")
                    (if Z.eqb (predicted_class p) 1
                     then "Pneumonia" else "Normal")
      then "green" else "red") = "green" <->
     (label == 1 <-> F32.gt p (F32.Fin 0.5) = true)) /\
    ((if String.eqb (if Qeq_bool label 1 then "Pneumonia" else "Normal")
                    (if Z.eqb (predicted_class p) 1
                     then "Pneumonia" else "Normal")
      then "green" else "red") = "red" <->
     ~ (label == 1 <-> F32.gt p (F32.Fin 0.5) = true))).
  { unfold predicted_class.
    pose proof (Qeq_bool_iff label 1) as Hq.
    destruct (Qeq_bool label 1), (F32.gt p (F32.Fin 0.5)); cbn; split; split;
      try (intros H; discriminate H); try reflexivity; intros H.
    - tauto.
    - exfalso. apply H. tauto.
    - exfalso. assert (F : true = true) by reflexivity.
      apply (proj1 Hq) in F. apply (proj1 H) in F. discriminate F.
    - intros [H1 _]. assert (F : true = true) by reflexivity.
      apply (proj1 Hq) in F. apply H1 in F. discriminate F.
    - exfalso. assert (F : true = true) by reflexivity.
      apply (proj2 H) in F. apply (proj2 Hq) in F. discriminate F.
    - intros [_ H2]. assert (F : true = true) by reflexivity.
      apply H2 in F. apply (proj2 Hq) in F. discriminate F.
    - split; intros F; [apply (proj2 Hq) in F |]; discriminate F.
    - exfalso. apply H. split; intros F;
        [apply (proj2 Hq) in F |]; discriminate F. }
  destruct Hgen as [Hgreen Hred].
  split; [exact Hgreen |]. split; [exact Hred |].
  intros q ->. rewrite Hgreen, Hred, !F32Facts.gt_finite. tauto.
Qed.

Lemma grid_within_axes_witness :
  snd (Grid.show_predictions nat (seq 0 10) (repeat 1 10)
         (repeat 1%Z 10) Demo.fmt (repeat (F32.Fin 0.75) 10) 8) = inr tt.
Proof.
  apply (grid_within_axes nat (seq 0 10) (repeat 1 10) (repeat 1%Z 10)
           Demo.fmt (repeat (F32.Fin 0.75) 10) 8); cbn; lia.
Defined.

Lemma grid_beyond_axes_witness :
  snd (Grid.show_predictions nat (seq 0 10) (repeat 1 10)
         (repeat 1%Z 10) Demo.fmt (repeat (F32.Fin 0.75) 10) 9) =
  inl (IndexError "index out of range").
Proof.
  apply (grid_beyond_axes nat (seq 0 10) (repeat 1 10) (repeat 1%Z 10)
           Demo.fmt (repeat (F32.Fin 0.75) 10) 9); cbn; lia.
Defined.

Lemma grid_colour_is_agreement_witness :
  exists label p,
    nth_error [1; 0] 1 = Some label /\
    nth_error [F32.Fin 0.75; F32.Fin 0.875] 1 = Some p /\
    ("red" = "green" <-> (label == 1 <-> F32.gt p (F32.Fin 0.5) = true)) /\
    ("red" = "red" <-> ~ (label == 1 <-> F32.gt p (F32.Fin 0.5) = true)) /\
    (forall q, p = F32.Fin q ->
       ("red" = "green" <-> (label == 1 <-> 0.5 < q)) /\
       ("red" = "red" <-> ~ (label == 1 <-> 0.5 < q))).
Proof.
  apply (grid_colour_is_agreement (seq 0 2) [1; 0] Demo.fmt
           [F32.Fin 0.75; F32.Fin 0.875] 1
           ("True: Normal" ++ Str.nl ++ "Pred: Pneumonia" ++ Str.nl
            ++ "Conf: ?") "red").
  vm_compute. do 7 right. left. reflexivity.
Defined.

(** ** More on preprocessing and on the interpretation *)

Lemma normalized_in_unit_range (v : nat) :
  (v <= 255)%nat ->
  0 <= inject_Z (Z.of_nat v) / 255.0 /\ inject_Z (Z.of_nat v) / 255.0 <= 1.
Proof.
  intros H. unfold Qle, Qdiv, Qmult, Qinv, inject_Z. cbn. lia.
Qed.

(** X21. What [preprocess_image] returns is a batch of exactly one
    image, of the dimensions of the resized image it returns beside it;
    and when the pixels of that image are 8-bit values, every entry of the
    tensor lies between 0 and 1. *)
Theorem preprocessed_tensor_shape_and_range (fs : FileSystem)
    (decode_rgb : list nat -> Exception + Image)
    (resize : nat * nat -> Image -> Image)
    (image_path : string) (img_array : Tensor) (img : Image) :
  outcome (preprocess_image fs decode_rgb resize image_path)
    = inr (img_array, img) ->
  (exists one, img_array = [one] /\
     map (map (@List.length Q)) one = map (map (@List.length nat)) img) /\
  (Forall (Forall (Forall (fun v => (v <= 255)%nat))) img ->
   Forall (Forall (Forall (Forall (fun x => 0 <= x /\ x <= 1)))) img_array).
Proof.
  unfold preprocess_image, open_rgb, call.
  destruct (match fs image_path with
            | Some (File content) => decode_rgb content
            | Some (Dir _) => inl (OtherError ("Is a directory: " ++ image_path))
            | None => inl (FileNotFoundError
                             ("No such file or directory: " ++ image_path))
            end) as [e | decoded]; cbn; [intros H; discriminate H |].
  intros [= <- <-]. split.
  - eexists. split; [reflexivity |].
    unfold normalize. rewrite map_map. apply map_ext. intros row.
    rewrite map_map. apply map_ext. intros px. apply length_map.
  - intros Hpx. constructor; [| constructor].
    unfold normalize.
    apply Forall_map. eapply Forall_impl; [| exact Hpx]. intros row Hrow.
    apply Forall_map. eapply Forall_impl; [| exact Hrow]. intros px Hp.
    apply Forall_map. eapply Forall_impl; [| exact Hp]. intros v Hv.
    now apply normalized_in_unit_range.
Qed.

Lemma preprocessed_tensor_shape_and_range_witness :
  exists one,
    [repeat (repeat (repeat (inject_Z 110 / 255.0) 3) 150) 150] = [one] /\
    map (map (@List.length Q)) one =
    map (map (@List.length nat)) (repeat (repeat [110; 110; 110]%nat 150) 150).
Proof.
  refine (proj1 (preprocessed_tensor_shape_and_range Demo.fs Demo.decode_rgb
                   Demo.resize "notes.txt" _ _ _)).
  vm_compute. reflexivity.
Defined.

(** X22. The interpretation at the edges of single precision.  A score
    between 0 and 1, both included, has a finite confidence between 0.5
    and 1.  A score that is not a number is NORMAL, since no comparison
    holds of it, with a confidence that is not a number.  Plus infinity is
    PNEUMONIA and minus infinity NORMAL, both with confidence plus
    infinity. *)
Theorem interpretation_at_the_edges :
  (forall q, 0 <= q -> q <= 1 ->
     exists c, confidence (interpret (F32.Fin q)) = F32.Fin c /\
               0.5 <= c /\ c <= 1) /\
  interpret F32.NaN =
    {| diagnosis := NORMAL; confidence := F32.NaN; color := "green" |} /\
  interpret F32.PosInf =
    {| diagnosis := PNEUMONIA; confidence := F32.PosInf; color := "red" |} /\
  interpret F32.NegInf =
    {| diagnosis := NORMAL; confidence := F32.PosInf; color := "green" |}.
Proof.
  split; [| repeat split].
  intros q H0 H1.
  destruct (Qlt_le_dec 0.5 q) as [Hhi | Hlo].
  - destruct (interpret_high q Hhi H1) as (Ei & _ & _). rewrite Ei.
    cbn [confidence]. exists q. split; [reflexivity |].
    split; [now apply Qlt_le_weak | exact H1].
  - destruct (interpret_low q H0 Hlo) as (Ei & _ & Ha & Hb). rewrite Ei.
    cbn [confidence]. exists (F32.round_finite (1 - q)). now repeat split.
Qed.

Lemma failed_prediction_is_silent_witness :
  predict_image ward_fs Demo.decode_rgb Demo.resize Demo.fmt Demo.fmt
    Demo.always_ill "ward/bad.png" true =
  ([OpenImage "ward/bad.png"],
   inl (OtherError "cannot identify image file")).
Proof.
  exact (proj2
    (failed_prediction_is_silent ward_fs Demo.decode_rgb Demo.resize
       Demo.fmt Demo.fmt Demo.always_ill "ward/bad.png" true
       (OtherError "cannot identify image file") eq_refl)
    (OtherError "cannot identify image file") eq_refl).
Defined.
